(** * pywayland: wire marshaling of messages, proxies and the object registry

    A shallow embedding of
    - [pywayland/scanner/argument.py]   (signature of a scanned argument),
    - [pywayland/protocol_core/message.py] (the [Message] wrapper: signature,
      [_marshaled_arguments], [arguments_to_c], [c_to_arguments]),
    - [pywayland/client/proxy.py]       (the client [Proxy]),
    together with the lemmas that relate the code to its specification. *)

From Stdlib Require Import ZArith NArith QArith Qcanon Qround Qabs Lqa.
From Stdlib Require Import String Ascii List Lia DecimalString.
From Stdlib.Strings Require Import Byte.
From stdpp Require Import base option numbers list gmap strings.

Local Open Scope string_scope.
Local Open Scope Z_scope.

(** ** Python exceptions and fallible results *)

(** The exceptions the embedded code can raise.  [Exception_ ""] is the bare
    [raise Exception]; [SegmentationFault] is not an exception but the crash
    of the process on a read through an invalid C pointer. *)
Inductive exn : Type :=
| Exception_ (msg : string)
| RuntimeError (msg : string)
| ValueError (msg : string)
| AttributeError (msg : string)
| TypeError
| OverflowError
| IndexError
| StopIteration
| NotImplementedError
| SegmentationFault.

Inductive result (A : Type) : Type :=
| Ok (a : A)
| Raise (e : exn).
Arguments Ok {A} a.
Arguments Raise {A} e.

Definition is_Ok {A} (r : result A) : bool :=
  match r with Ok _ => true | Raise _ => false end.

#[global] Instance result_ret : MRet result := @Ok.
#[global] Instance result_bind : MBind result := fun A B k r =>
  match r with
  | Ok a => k a
  | Raise e => Raise e
  end.

(** [str(n)] / [f"{n}"] for a Python int. *)
Definition str_of_int (n : Z) : string := NilZero.string_of_int (Z.to_int n).

(** Truthiness of an [Optional[str]]: [None] and [""] are false. *)
Definition truthy_str (o : option string) : bool :=
  match o with
  | None => false
  | Some "" => false
  | Some _ => true
  end.

(** ** scanner/argument.py *)

Module Scanner.

(** The attributes [Argument.__init__] reads off the XML element. *)
Record Argument : Type := {
  name : string;
  type : string;
  summary : option string;
  interface : option string;
  allow_null : option string;
  enum : option string
}.

Definition type_to_string (self : Argument) : result string :=
  if String.eqb (type self) "int" then Ok "i"
  else if String.eqb (type self) "uint" then Ok "u"
  else if String.eqb (type self) "fixed" then Ok "f"
  else if String.eqb (type self) "string" then Ok "s"
  else if String.eqb (type self) "object" then Ok "o"
  else if String.eqb (type self) "new_id" then
    if truthy_str (interface self) then Ok "n" else Ok "sun"
  else if String.eqb (type self) "array" then Ok "a"
  else if String.eqb (type self) "fd" then Ok "h"
  else Raise (RuntimeError ("Invalid argument type: " ++ type self)).

Definition signature (self : Argument) : result string :=
  if truthy_str (allow_null self) then
    s ← type_to_string self; Ok ("?" ++ s)
  else type_to_string self.

End Scanner.

(** ** protocol_core: descriptors *)

Module ArgumentType.
(** The members of the [ArgumentType] enumeration that message.py tests. *)
Inductive t : Type :=
| Int | Uint | Fixed | String | Object | NewId | Array | FileDescriptor.

#[global] Instance eq_dec : EqDecision t.
Proof. solve_decision. Defined.
End ArgumentType.

Module Interface.
(** What message.py and proxy.py read off an interface class: its [name],
    its [version] and the address [_ptr] of its [wl_interface] struct.  An
    interface class is identified by this record (classes can refer to
    themselves, as [WlDestructor] does in its own request). *)
Record t : Type := {
  name : string;
  version : Z;
  _ptr : N
}.
End Interface.

Module Argument.
(** [Argument(argument_type, nullable=False, interface=None)] as message.py
    and the generated protocol modules use it. *)
Record t : Type := {
  argument_type : ArgumentType.t;
  nullable : bool;
  interface : option Interface.t
}.

(** [Argument(ty)] with the defaults. *)
Definition make (ty : ArgumentType.t) : t :=
  {| argument_type := ty; nullable := false; interface := None |}.

(** Modelled from the spec: the [signature] property of
    protocol_core.argument.Argument is not under src/ (only its uses in
    message.py are).  Section 4.1: type to signature characters,
    i, u, f, s, o, n for a bound new id, sun for an unbound one, a, h. *)
Definition type_chars (self : t) : string :=
  match argument_type self with
  | ArgumentType.Int => "i"
  | ArgumentType.Uint => "u"
  | ArgumentType.Fixed => "f"
  | ArgumentType.String => "s"
  | ArgumentType.Object => "o"
  | ArgumentType.NewId =>
      match interface self with Some _ => "n" | None => "sun" end
  | ArgumentType.Array => "a"
  | ArgumentType.FileDescriptor => "h"
  end.

(** Modelled from the spec: (same missing property) the characters are
    prefixed with a question mark when the argument is nullable. *)
Definition signature (self : t) : string :=
  if nullable self then "?" ++ type_chars self else type_chars self.
End Argument.

(** [s.strip('_')] *)
Fixpoint lstrip_underscore (s : string) : string :=
  match s with
  | String "_" s' => lstrip_underscore s'
  | _ => s
  end.

Fixpoint rstrip_underscore (s : string) : string :=
  match s with
  | EmptyString => EmptyString
  | String c s' =>
      match rstrip_underscore s' with
      | EmptyString => if Ascii.eqb c "_" then EmptyString else String c EmptyString
      | r => String c r
      end
  end.

Definition strip_underscore (s : string) : string :=
  rstrip_underscore (lstrip_underscore s).

(** [signature = "".join(argument.signature for argument in self.arguments)]
    followed by the version prefix, lines 69-71 of message.py.  The loop only
    uses the [signature] property of its elements, so it is written once for
    any descriptor class with such a property. *)
Fixpoint join_signatures {A} (signature : A -> result string) (arguments : list A)
  : result string :=
  match arguments with
  | [] => Ok ""
  | argument :: rest =>
      s ← signature argument;
      r ← join_signatures signature rest;
      Ok (s ++ r)
  end.

Definition message_signature {A} (signature : A -> result string)
    (arguments : list A) (version : option Z) : result string :=
  signature ← join_signatures signature arguments;
  match version with
  | Some v => Ok (str_of_int v ++ signature)
  | None => Ok signature
  end.

Module Message.
(** The attributes of a [Message].  [types] is read by [c_to_arguments]
    but never assigned by [__init__]: [None] is the attribute being
    absent. *)
Record t : Type := {
  name : string;
  arguments : list Argument.t;
  version : option Z;
  types : option (list (option Interface.t))
}.

(** [Message(func, arguments, version)]; [func] through its [__name__]. *)
Definition __init__ (func_name : string) (arguments : list Argument.t)
    (version : option Z) : t :=
  {| name := strip_underscore func_name;
     arguments := arguments;
     version := version;
     types := None |}.

Definition expand (arg : Argument.t) : list Argument.t :=
  match Argument.interface arg, Argument.argument_type arg with
  | None, ArgumentType.NewId =>
      [Argument.make ArgumentType.String; Argument.make ArgumentType.Uint; arg]
  | _, _ => [arg]
  end.

(** The generator [_marshaled_arguments], as the list it yields. *)
Fixpoint marshaled (arguments : list Argument.t) : list Argument.t :=
  match arguments with
  | [] => []
  | arg :: rest => expand arg ++ marshaled rest
  end.

Definition _marshaled_arguments (self : t) : list Argument.t :=
  marshaled (arguments self).

Definition signature (self : t) : result string :=
  message_signature (fun a => Ok (Argument.signature a)) (arguments self) (version self).
End Message.

(** ** Python values and the C memory behind cffi *)

Module Proxy.
(** The instance attributes of a client [Proxy].  [oid] is the identity of
    the Python object; [_ptr] is [None] or a cdata pointer ([Some 0] is a
    NULL cdata pointer); [_display] refers to the display object by its
    identity; [_handle] is set once a dispatcher has been attached. *)
Record t : Type := {
  oid : N;
  _ptr : option N;
  _display : option N;
  user_data : option N;
  _handle : option N
}.
End Proxy.

(** The runtime values that reach the codec.  A [str] is carried by its
    UTF-8 bytes, one [ascii] per byte, so that [encode] and [decode] are the
    conversions between [string] and [list byte]. *)
Inductive pyvalue : Type :=
| PyNone
| PyInt (n : Z)
| PyFloat (x : Qc)
| PyStr (s : string)
| PyBytes (b : list byte)
| PyProxy (p : Proxy.t).

Definition str_encode (s : string) : list byte := list_byte_of_string s.

(** On the bytes that carry a [str], which are UTF-8, [decode] returns that
    [str].  On bytes that are not UTF-8 Python raises UnicodeDecodeError;
    here the string of those bytes is returned, so the decoder below
    returns in every case in which the program does. *)
Definition bytes_decode (b : list byte) : string := string_of_list_byte b.

(** [struct wl_array] *)
Record wl_array : Type := {
  size : Z;
  alloc : Z;
  data : N
}.

(** What an allocation holds: a [char[]]/[void[]], a [struct wl_array], an
    array of [struct wl_interface *], a [struct wl_message], an array of
    [union wl_argument], or a handle made by [ffi.new_handle].  A
    [union wl_argument] is 8 bytes (LP64) and is carried as the 64-bit
    little-endian word it occupies: the 32-bit members [i], [u], [f], [n],
    [h] are its low half, the pointer members [s], [o], [a] the whole
    word. *)
Inductive block : Type :=
| Chars (bytes : list byte)
| WlArray (a : wl_array)
| Pointers (l : list N)
| WlMessage (name signature types : N)
| ArgumentCells (cells : list Z)
| Handle (obj : N).

Record memory : Type := {
  next : positive;
  blocks : gmap N block
}.

(** Calls into libwayland, in the order they are made. *)
Inductive lib_call : Type :=
| wl_proxy_add_dispatcher (proxy handle : N)
| wl_proxy_marshal_array (proxy : N) (opcode : nat) (args_ptr : N)
| wl_proxy_marshal_array_constructor (proxy : N) (opcode : nat) (args_ptr interface : N).

(** The state the embedded modules share: the C memory, [weakkeydict] of
    message.py (an argument array to the buffers it keeps alive),
    [dispatcher_to_object] of pywayland.dispatcher (a dispatcher to the
    identity of its proxy), the calls made into libwayland, and the source
    of identities for new Python objects. *)
Record state : Type := {
  mem : memory;
  weakkeydict : gmap N (list N);
  dispatcher_to_object : gmap N N;
  lib_calls : list lib_call;
  next_oid : N
}.

Definition with_mem (m : memory) (s : state) : state :=
  {| mem := m; weakkeydict := weakkeydict s;
     dispatcher_to_object := dispatcher_to_object s;
     lib_calls := lib_calls s; next_oid := next_oid s |}.

Definition M (A : Type) : Type := state -> result (A * state).

#[global] Instance M_ret : MRet M := fun A a s => Ok (a, s).
#[global] Instance M_bind : MBind M := fun A B k c s =>
  match c s with
  | Ok (a, s') => k a s'
  | Raise e => Raise e
  end.

Definition raise {A} (e : exn) : M A := fun _ => Raise e.
Definition lift {A} (r : result A) : M A := fun s =>
  match r with Ok a => Ok (a, s) | Raise e => Raise e end.

Definition sizeof (b : block) : positive :=
  match b with
  | Chars bytes => Pos.of_succ_nat (length bytes)
  | WlArray _ => 24
  | Pointers l => Pos.of_succ_nat (8 * length l)
  | WlMessage _ _ _ => 24
  | ArgumentCells cells => Pos.of_succ_nat (8 * length cells)
  | Handle _ => 8
  end.

(** [ffi.new]: a fresh, non-null address holding [b]. *)
Definition ffi_new (b : block) : M N := fun s =>
  let p := Npos (next (mem s)) in
  Ok (p, with_mem {| next := next (mem s) + sizeof b;
                      blocks := <[p := b]> (blocks (mem s)) |} s).

Definition store (p : N) (b : block) : M unit := fun s =>
  Ok (tt, with_mem {| next := next (mem s); blocks := <[p := b]> (blocks (mem s)) |} s).

Definition load (p : N) : M (option block) := fun s => Ok (blocks (mem s) !! p, s).

(** *** Members of [union wl_argument] *)

Definition get_u (c : Z) : Z := c mod 2 ^ 32.
Definition to_signed32 (v : Z) : Z := (v + 2 ^ 31) mod 2 ^ 32 - 2 ^ 31.
Definition get_i (c : Z) : Z := to_signed32 (c mod 2 ^ 32).
Definition set_low32 (v : Z) (c : Z) : Z := c - c mod 2 ^ 32 + v mod 2 ^ 32.
Definition get_ptr (c : Z) : N := Z.to_N c.
Definition set_ptr (p : N) (c : Z) : Z := Z.of_N p.

(** cffi's conversion of a Python object to a C [int32_t] / [uint32_t]. *)
Definition to_int32 (arg : pyvalue) : result Z :=
  match arg with
  | PyInt n => if (- 2 ^ 31 <=? n) && (n <? 2 ^ 31) then Ok n else Raise OverflowError
  | _ => Raise TypeError
  end.

Definition to_uint32 (arg : pyvalue) : result Z :=
  match arg with
  | PyInt n => if (0 <=? n) && (n <? 2 ^ 32) then Ok n else Raise OverflowError
  | _ => Raise TypeError
  end.

(** Modelled from the spec: [lib.wl_fixed_from_int], [lib.wl_fixed_from_double]
    and [lib.wl_fixed_to_double] are libwayland's; a float is carried by the
    rational it denotes.  Fixed is 24.8 signed fixed point: an integer is
    scaled by 256, a floating value is converted to the nearest multiple of
    1/256 (of two nearest ones to the even one, as the addition in double
    precision that libwayland uses rounds), and decoding is the inverse
    transform. *)
Definition wl_fixed_from_int (i : Z) : Z := to_signed32 (i * 256).

Definition round_half_even (x : Q) : Z :=
  let f := Qfloor x in
  match Qcompare (x - inject_Z f) (1 # 2) with
  | Lt => f
  | Gt => f + 1
  | Eq => if Z.even f then f else f + 1
  end.

Definition wl_fixed_from_double (d : Qc) : Z :=
  to_signed32 (round_half_even (Qmult (this d) (256 # 1))).

Definition wl_fixed_to_double (f : Z) : Qc := Q2Qc (f # 256).

(** [args_ptr[i]]: a reference to the cell, i.e. its address and content. *)
Definition sizeof_wl_argument : N := 8.

Definition args_index (m : memory) (args_ptr : N) (i : nat) : result (N * Z) :=
  if (args_ptr =? 0)%N then Raise (RuntimeError "cannot dereference null pointer")
  else
    match blocks m !! args_ptr with
    | Some (ArgumentCells cells) =>
        match cells !! i with
        | Some c => Ok ((args_ptr + sizeof_wl_argument * N.of_nat i)%N, c)
        | None => Raise IndexError
        end
    | _ => Raise SegmentationFault
    end.

(** [args_ptr[i].member = v] *)
Definition write_cell (args_ptr : N) (i : nat) (f : Z -> Z) : M unit := fun s =>
  match blocks (mem s) !! args_ptr with
  | Some (ArgumentCells cells) =>
      match cells !! i with
      | Some c => store args_ptr (ArgumentCells (<[i := f c]> cells)) s
      | None => Raise IndexError
      end
  | _ => Raise SegmentationFault
  end.

(** [ffi.string(p)] for a [char *]: the bytes before the first NUL. *)
Fixpoint until_nul (bytes : list byte) : option (list byte) :=
  match bytes with
  | [] => None
  | b :: rest =>
      if Byte.eqb b Byte.x00 then Some []
      else match until_nul rest with
           | Some r => Some (b :: r)
           | None => None
           end
  end.

Definition ffi_string (m : memory) (p : N) : result (list byte) :=
  if (p =? 0)%N then Raise (RuntimeError "cannot use string() on NULL")
  else
    match blocks m !! p with
    | Some (Chars bytes) =>
        match until_nul bytes with
        | Some r => Ok r
        | None => Raise SegmentationFault
        end
    | _ => Raise SegmentationFault
    end.

(** [ffi.buffer(data, size)[:]]: a buffer of size 0 reads nothing, whatever
    [data] is. *)
Definition ffi_buffer (m : memory) (data : N) (size : Z) : result (list byte) :=
  if size =? 0 then Ok []
  else
    match blocks m !! data with
    | Some (Chars bytes) =>
        if (0 <=? size) && (size <=? Z.of_nat (length bytes))
        then Ok (take (Z.to_nat size) bytes)
        else Raise SegmentationFault
    | _ => Raise SegmentationFault
    end.

(** ** The object registry *)

Module Registry.
(** Modelled from the spec: the registry is not under src/ (message.py only
    calls [registry.get]).  Section 7: DuplicateIdentity is the violation of
    the registry invariant. *)
Inductive error : Type := DuplicateIdentity.

(** Modelled from the spec: (the registry is not under src/) section 4.4,
    [resolve(identity)] is a lookup without side effect. *)
Definition resolve (identity : N) (registry : gmap N Proxy.t) : option Proxy.t :=
  registry !! identity.

(** Modelled from the spec: (the registry is not under src/) section 4.4,
    [register(identity, proxy)] inserts the mapping and fails with
    DuplicateIdentity if the identity is already live. *)
Definition register (identity : N) (proxy : Proxy.t) (registry : gmap N Proxy.t)
  : error + gmap N Proxy.t :=
  match registry !! identity with
  | Some _ => inl DuplicateIdentity
  | None => inr (<[identity := proxy]> registry)
  end.

(** Modelled from the spec: (the registry is not under src/) section 4.4,
    [unregister(identity)] removes the mapping. *)
Definition unregister (identity : N) (registry : gmap N Proxy.t) : gmap N Proxy.t :=
  delete identity registry.
End Registry.

(** ** message.py: decoding, [Message.c_to_arguments] *)

Section Codec.

(** [iface.proxy_class.registry] for an interface class: [None] when the
    proxy class has no [registry] attribute. *)
Variable proxy_class_registry : Interface.t -> option (gmap N Proxy.t).

Definition null_object_message (self : Message.t) : string :=
  "Got null object parsing arguments for '" ++ Message.name self
    ++ "' message, may already be destroyed".

(** [self.types[i]] *)
Definition types_index (self : Message.t) (i : nat) : result (option Interface.t) :=
  match Message.types self with
  | None => Raise (AttributeError "types")
  | Some types =>
      match types !! i with
      | Some iface => Ok iface
      | None => Raise IndexError
      end
  end.

(** One turn of the loop of [c_to_arguments]; [arg_ptr] is [args_ptr[i]],
    the address of the cell and its content.  cffi compares cdata of
    pointer, struct and union type by address: [arg_ptr == ffi.NULL] in the
    string branch tests the address of the cell, [arg_ptr.o == ffi.NULL] in
    the object branch the pointer stored in it.  The text of the second
    RuntimeError leaves out the repr of the pointer, and the final [else]
    of the source has no case here: the eight members are all tested. *)
Definition c_to_argument (self : Message.t) (m : memory) (i : nat)
    (argument : Argument.t) (arg_ptr : N * Z) : result pyvalue :=
  let '(address, cell) := arg_ptr in
  match Argument.argument_type argument with
  | ArgumentType.Int => Ok (PyInt (get_i cell))
  | ArgumentType.Uint => Ok (PyInt (get_u cell))
  | ArgumentType.Fixed => Ok (PyFloat (wl_fixed_to_double (get_i cell)))
  | ArgumentType.FileDescriptor => Ok (PyInt (get_i cell))
  | ArgumentType.String =>
      if (address =? 0)%N then
        if negb (Argument.nullable argument) then Raise (Exception_ "")
        else Ok PyNone
      else
        b ← ffi_string m (get_ptr cell);
        Ok (PyStr (bytes_decode b))
  | ArgumentType.Object =>
      if (get_ptr cell =? 0)%N then
        if negb (Argument.nullable argument)
        then Raise (RuntimeError (null_object_message self))
        else Ok PyNone
      else
        iface ← types_index self i;
        match iface with
        | None => Raise (AttributeError "proxy_class")
        | Some iface =>
            match proxy_class_registry iface with
            | None => Raise (AttributeError "registry")
            | Some registry =>
                match Registry.resolve (get_ptr cell) registry with
                | None => Raise (RuntimeError "Unable to get object, was it garbage collected?")
                | Some obj => Ok (PyProxy obj)
                end
            end
        end
  | ArgumentType.NewId => Raise NotImplementedError
  | ArgumentType.Array =>
      match blocks m !! get_ptr cell with
      | Some (WlArray array) =>
          b ← ffi_buffer m (data array) (size array);
          Ok (PyBytes b)
      | _ => Raise SegmentationFault
      end
  end.

Fixpoint c_to_arguments_from (self : Message.t) (m : memory) (args_ptr : N)
    (i : nat) (arguments : list Argument.t) : result (list pyvalue) :=
  match arguments with
  | [] => Ok []
  | argument :: rest =>
      arg_ptr ← args_index m args_ptr i;
      arg ← c_to_argument self m i argument arg_ptr;
      args ← c_to_arguments_from self m args_ptr (S i) rest;
      Ok (arg :: args)
  end.

Definition c_to_arguments (self : Message.t) (m : memory) (args_ptr : N)
  : result (list pyvalue) :=
  c_to_arguments_from self m args_ptr 0 (Message.arguments self).

End Codec.

(** ** message.py: encoding, [Message.arguments_to_c] *)

(** The branches after [arg = next(arg_iter)]; the result is [refs].  A
    value of the wrong Python type fails in cffi's conversion (TypeError,
    OverflowError) or on the missing attribute (AttributeError).  The array
    branch is as in the source: after the [wl_array] is allocated it asks
    for a [void []], which cffi refuses, so the statements after it (that
    set [new_arg.alloc] and [new_arg.size] and copy the bytes, and assign
    neither [new_arg.data] nor [args_ptr[i].a]) are never reached.  The
    chain has no branch for a new id,
    which the loop handles before it takes an argument. *)
Definition is_continuation (c : byte) : bool :=
  ((128 <=? Byte.to_N c) && (Byte.to_N c <? 192))%N.

(** [len(arg)]: the number of bytes of a bytes object, the number of
    characters of a str (the bytes of its UTF-8 text that start a
    character); a value of another type has no length. *)
Definition len (arg : pyvalue) : result Z :=
  match arg with
  | PyBytes b => Ok (Z.of_nat (length b))
  | PyStr s =>
      Ok (Z.of_nat (length (List.filter (fun c => negb (is_continuation c)) (str_encode s))))
  | _ => Raise TypeError
  end.

(** [ffi.new('void []', n)]: cffi has no array type with items of type
    [void] and raises ValueError, whatever [n] is. *)
Definition ffi_new_void_array (n : Z) : M N :=
  raise (ValueError "array item of unknown size: 'void'").

(** [ffi.buffer(new_data)[:] = arg] *)
Definition buffer_assign (new_data : N) (arg : pyvalue) : M unit :=
  match arg with
  | PyBytes b => store new_data (Chars b)
  | _ => raise TypeError
  end.

Definition argument_to_c (args_ptr : N) (i : nat) (argument : Argument.t)
    (arg : pyvalue) (refs : list N) : M (list N) :=
  match Argument.argument_type argument with
  | ArgumentType.Int =>
      v ← lift (to_int32 arg);
      _ ← write_cell args_ptr i (set_low32 v);
      mret refs
  | ArgumentType.Uint =>
      v ← lift (to_uint32 arg);
      _ ← write_cell args_ptr i (set_low32 v);
      mret refs
  | ArgumentType.Fixed =>
      f ← lift (match arg with
                | PyInt n => n' ← to_int32 arg; Ok (wl_fixed_from_int n')
                | PyFloat d => Ok (wl_fixed_from_double d)
                | _ => Raise TypeError
                end);
      _ ← write_cell args_ptr i (set_low32 f);
      mret refs
  | ArgumentType.FileDescriptor =>
      v ← lift (to_int32 arg);
      _ ← write_cell args_ptr i (set_low32 v);
      mret refs
  | ArgumentType.String =>
      match arg with
      | PyNone =>
          if negb (Argument.nullable argument) then raise (Exception_ "")
          else
            _ ← write_cell args_ptr i (set_ptr 0);
            mret refs
      | PyStr s =>
          new_arg ← ffi_new (Chars (str_encode s ++ [x00])%list);
          _ ← write_cell args_ptr i (set_ptr new_arg);
          mret (refs ++ [new_arg])%list
      | _ => raise (AttributeError "encode")
      end
  | ArgumentType.Object =>
      match arg with
      | PyNone =>
          if negb (Argument.nullable argument) then raise (Exception_ "")
          else
            _ ← write_cell args_ptr i (set_ptr 0);
            mret refs
      | PyProxy p =>
          match Proxy._ptr p with
          | None => raise TypeError
          | Some new_arg =>
              _ ← write_cell args_ptr i (set_ptr new_arg);
              mret (refs ++ [new_arg])%list
          end
      | _ => raise (AttributeError "_ptr")
      end
  | ArgumentType.Array =>
      new_arg ← ffi_new (WlArray {| size := 0; alloc := 0; data := 0%N |});
      n ← lift (len arg);
      new_data ← ffi_new_void_array n;
      _ ← store new_arg (WlArray {| size := n; alloc := n; data := 0%N |});
      _ ← buffer_assign new_data arg;
      mret (refs ++ [new_arg; new_data])%list
  | ArgumentType.NewId => mret refs
  end.

(** The loop over [enumerate(self._marshaled_arguments)]: a new id sets its
    cell to NULL and continues without taking an argument, every other
    marshaled argument takes [next(arg_iter)]. *)
Fixpoint arguments_to_c_from (args_ptr : N) (i : nat) (marshaled : list Argument.t)
    (arg_iter : list pyvalue) (refs : list N) : M (list N) :=
  match marshaled with
  | [] => mret refs
  | argument :: rest =>
      if decide (Argument.argument_type argument = ArgumentType.NewId) then
        _ ← write_cell args_ptr i (set_ptr 0);
        arguments_to_c_from args_ptr (S i) rest arg_iter refs
      else
        match arg_iter with
        | [] => raise StopIteration
        | arg :: arg_iter' =>
            refs' ← argument_to_c args_ptr i argument arg refs;
            arguments_to_c_from args_ptr (S i) rest arg_iter' refs'
        end
  end.

Definition set_weakkeydict (args_ptr : N) (refs : list N) : M unit := fun s =>
  Ok (tt, {| mem := mem s; weakkeydict := <[args_ptr := refs]> (weakkeydict s);
             dispatcher_to_object := dispatcher_to_object s;
             lib_calls := lib_calls s; next_oid := next_oid s |}).

Definition arguments_to_c (self : Message.t) (args : list pyvalue) : M N :=
  let nargs := length (Message._marshaled_arguments self) in
  args_ptr ← ffi_new (ArgumentCells (repeat 0 nargs));
  refs ← arguments_to_c_from args_ptr 0 (Message._marshaled_arguments self) args [];
  _ ← (if (0 <? length refs)%nat then set_weakkeydict args_ptr refs else mret tt);
  mret args_ptr.

(** ** message.py: [Message.build_message_struct] *)

(** The loop that fills [types[index]] with NULL or [argument.interface._ptr]. *)
Fixpoint build_types (types : N) (index : nat) (marshaled : list Argument.t) : M unit :=
  match marshaled with
  | [] => mret tt
  | argument :: rest =>
      cur ← load types;
      _ ← match cur with
          | Some (Pointers l) =>
              store types (Pointers (<[index :=
                match Argument.interface argument with
                | None => 0%N
                | Some iface => Interface._ptr iface
                end]> l))
          | _ => raise SegmentationFault
          end;
      build_types types (S index) rest
  end.

(** [wl_message_struct] is the address of the struct to fill; its three
    members are written once the three buffers exist. *)
Definition build_message_struct (self : Message.t) (wl_message_struct : N)
  : M (N * N * N) :=
  signature ← lift (Message.signature self);
  name ← ffi_new (Chars (str_encode (Message.name self) ++ [x00])%list);
  signature ← ffi_new (Chars (str_encode signature ++ [x00])%list);
  types ← ffi_new (Pointers (repeat 0%N (length (Message._marshaled_arguments self))));
  _ ← store wl_message_struct (WlMessage name signature types);
  _ ← build_types types 0 (Message._marshaled_arguments self);
  mret (name, signature, types).

(** ** client/proxy.py *)

(** Truthiness of [self._ptr]: [None] and a NULL cdata pointer are false. *)
Definition truthy_ptr (ptr : option N) : bool :=
  match ptr with
  | None => false
  | Some p => negb (p =? 0)%N
  end.

(** [lib.wl_proxy_add_dispatcher], [lib.wl_proxy_marshal_array]: recorded. *)
Definition call (c : lib_call) : M unit := fun s =>
  Ok (tt, {| mem := mem s; weakkeydict := weakkeydict s;
             dispatcher_to_object := dispatcher_to_object s;
             lib_calls := (lib_calls s ++ [c])%list; next_oid := next_oid s |}).

Definition set_dispatcher_to_object (dispatcher obj : N) : M unit := fun s =>
  Ok (tt, {| mem := mem s; weakkeydict := weakkeydict s;
             dispatcher_to_object := <[dispatcher := obj]> (dispatcher_to_object s);
             lib_calls := lib_calls s; next_oid := next_oid s |}).

(** Creation of the Python object before [__init__] runs on it. *)
Definition new_object : M N := fun s =>
  Ok (next_oid s, {| mem := mem s; weakkeydict := weakkeydict s;
                     dispatcher_to_object := dispatcher_to_object s;
                     lib_calls := lib_calls s; next_oid := N.succ (next_oid s) |}).

(** [ffi.cast('struct wl_proxy *', self._ptr)] *)
Definition cast_ptr (ptr : option N) : M N :=
  match ptr with
  | Some p => mret p
  | None => raise TypeError
  end.

(** [Proxy.__init__(self, ptr, display=None)] for the object [self] of a
    proxy class whose class attribute [dispatcher] is [dispatcher]. *)
Definition Proxy___init__ (dispatcher : option N) (self : N)
    (ptr : option N) (display : option N) : M Proxy.t :=
  let self0 := {| Proxy.oid := self; Proxy._ptr := ptr; Proxy._display := display;
                  Proxy.user_data := None; Proxy._handle := None |} in
  match Proxy._ptr self0 with
  | None => mret self0
  | Some _ =>
      match display with
      | None => raise (ValueError "Non-Display Proxy objects must be associated to a Display")
      | Some _ =>
          match dispatcher with
          | None => mret self0
          | Some d =>
              _ ← set_dispatcher_to_object d self;
              handle ← ffi_new (Handle d);
              proxy ← cast_ptr (Proxy._ptr self0);
              _ ← call (wl_proxy_add_dispatcher proxy handle);
              mret {| Proxy.oid := self; Proxy._ptr := ptr; Proxy._display := display;
                      Proxy.user_data := None; Proxy._handle := Some handle |}
          end
      end
  end.

(** [Proxy._destroy] *)
Definition _destroy (self : Proxy.t) : Proxy.t :=
  if truthy_ptr (Proxy._ptr self) then
    {| Proxy.oid := Proxy.oid self; Proxy._ptr := None;
       Proxy._display := Proxy._display self;
       Proxy.user_data := Proxy.user_data self;
       Proxy._handle := Proxy._handle self |}
  else self.

(** Modelled from the spec: the decorator [ensure_valid] is imported from
    pywayland.utils but is not in the utils.py under src/.  Section 3: after
    destruction the Proxy no longer accepts marshal calls.  The wrapped
    method runs only while the proxy still has its pointer. *)
Definition ensure_valid {A} (func : Proxy.t -> M A) (self : Proxy.t) : M A :=
  match Proxy._ptr self with
  | None => raise (ValueError "proxy has been destroyed")
  | Some _ => func self
  end.

Section ProxyMethods.

(** [self._interface.requests] of the proxy's class. *)
Variable requests : list Message.t.
(** The class attribute [dispatcher] of [interface.proxy_class]. *)
Variable proxy_class_dispatcher : Interface.t -> option N.
(** The pointer [lib.wl_proxy_marshal_array_constructor] returns. *)
Variable constructor_result : N -> nat -> N -> N -> N.

(** [self._interface.requests[opcode]] *)
Definition request (opcode : nat) : M Message.t :=
  match requests !! opcode with
  | Some message => mret message
  | None => raise IndexError
  end.

Definition _marshal_body (opcode : nat) (args : list pyvalue) (self : Proxy.t) : M unit :=
  message ← request opcode;
  args_ptr ← arguments_to_c message args;
  proxy ← cast_ptr (Proxy._ptr self);
  call (wl_proxy_marshal_array proxy opcode args_ptr).

Definition _marshal (self : Proxy.t) (opcode : nat) (args : list pyvalue) : M unit :=
  ensure_valid (_marshal_body opcode args) self.

(** The [ValueError] of line 84 is built but not raised, so the
    [isinstance] test has no effect. *)
Definition _marshal_constructor_body (opcode : nat) (interface : Interface.t)
    (args : list pyvalue) (self : Proxy.t) : M Proxy.t :=
  let display := match Proxy._display self with
                 | Some d => d
                 | None => Proxy.oid self
                 end in
  message ← request opcode;
  args_ptr ← arguments_to_c message args;
  proxy ← cast_ptr (Proxy._ptr self);
  _ ← call (wl_proxy_marshal_array_constructor proxy opcode args_ptr (Interface._ptr interface));
  obj ← new_object;
  Proxy___init__ (proxy_class_dispatcher interface) obj
    (Some (constructor_result proxy opcode args_ptr (Interface._ptr interface)))
    (Some display).

Definition _marshal_constructor (self : Proxy.t) (opcode : nat)
    (interface : Interface.t) (args : list pyvalue) : M Proxy.t :=
  ensure_valid (_marshal_constructor_body opcode interface args) self.

End ProxyMethods.

(** ** The specification's reading of signatures *)

Module Spec.

(** The closed set of wire kinds, a new id being bound or unbound. *)
Inductive kind : Type :=
| KInt | KUint | KFixed | KString | KObject
| KNewIdBound | KNewIdUnbound | KArray | KFileDescriptor.

(** Section 4.1, the lookup from kind to signature characters. *)
Definition signature_chars (k : kind) : string :=
  match k with
  | KInt => "i" | KUint => "u" | KFixed => "f" | KString => "s"
  | KObject => "o" | KNewIdBound => "n" | KNewIdUnbound => "sun"
  | KArray => "a" | KFileDescriptor => "h"
  end.

Definition argument_signature (a : kind * bool) : string :=
  ((if snd a then "?" else "") ++ signature_chars (fst a))%string.

(** Section 3: the concatenation of the arguments' signature characters,
    prefixed with the version number if the message is versioned. *)
Definition message_signature (arguments : list (kind * bool)) (version : option Z)
  : string :=
  (match version with Some v => str_of_int v | None => "" end
     ++ String.concat "" (map argument_signature arguments))%string.

(** The kind and nullability of a scanned argument; [None] when its type
    string is not one of the recognized kinds. *)
Definition of_scanner (a : Scanner.Argument) : option (kind * bool) :=
  let nullable := truthy_str (Scanner.allow_null a) in
  let ty := Scanner.type a in
  if String.eqb ty "int" then Some (KInt, nullable)
  else if String.eqb ty "uint" then Some (KUint, nullable)
  else if String.eqb ty "fixed" then Some (KFixed, nullable)
  else if String.eqb ty "string" then Some (KString, nullable)
  else if String.eqb ty "object" then Some (KObject, nullable)
  else if String.eqb ty "new_id" then
    Some (if truthy_str (Scanner.interface a) then KNewIdBound else KNewIdUnbound,
          nullable)
  else if String.eqb ty "array" then Some (KArray, nullable)
  else if String.eqb ty "fd" then Some (KFileDescriptor, nullable)
  else None.

(** The kind and nullability of a protocol_core argument. *)
Definition of_argument (a : Argument.t) : kind * bool :=
  (match Argument.argument_type a with
   | ArgumentType.Int => KInt
   | ArgumentType.Uint => KUint
   | ArgumentType.Fixed => KFixed
   | ArgumentType.String => KString
   | ArgumentType.Object => KObject
   | ArgumentType.NewId =>
       match Argument.interface a with Some _ => KNewIdBound | None => KNewIdUnbound end
   | ArgumentType.Array => KArray
   | ArgumentType.FileDescriptor => KFileDescriptor
   end, Argument.nullable a).

(** An argument is unbound when it is a new id without an interface. *)
Definition unbound (a : Argument.t) : bool :=
  match Argument.interface a, Argument.argument_type a with
  | None, ArgumentType.NewId => true
  | _, _ => false
  end.

End Spec.

(** Scanned arguments used in examples. *)
Definition scanned (type : string) (interface allow_null : option string)
  : Scanner.Argument :=
  {| Scanner.name := "arg"; Scanner.type := type; Scanner.summary := None;
     Scanner.interface := interface; Scanner.allow_null := allow_null;
     Scanner.enum := None |}.

Definition wl_surface : Interface.t :=
  {| Interface.name := "wl_surface"; Interface.version := 4; Interface._ptr := 512 |}.

Definition initial_state : state :=
  {| mem := {| next := 4096; blocks := ∅ |};
     weakkeydict := ∅; dispatcher_to_object := ∅; lib_calls := []; next_oid := 1 |}.

(** The message of the end-to-end scenario: [bind(name, new_id)]. *)
Definition bind_message : Message.t :=
  Message.__init__ "bind"
    [Argument.make ArgumentType.Uint; Argument.make ArgumentType.NewId] None.

(** The argument array of [n] cells at [a] is allocated in [s]. *)
Definition cells_at (a : N) (n : nat) (s : state) : Prop :=
  (exists cells, blocks (mem s) !! a = Some (ArgumentCells cells) /\ length cells = n)
  /\ (a < Npos (next (mem s)))%N.

(** A message with the single declared argument [a], as [Message.__init__]
    builds it. *)
Definition single (a : Argument.t) : Message.t := Message.__init__ "event" [a] None.

(** An argument of type [ty] with any flags. *)
Definition argument (ty : ArgumentType.t) (nullable : bool) (iface : option Interface.t)
  : Argument.t :=
  {| Argument.argument_type := ty; Argument.nullable := nullable;
     Argument.interface := iface |}.

(** A live proxy of [wl_surface] at the address 8192, the registry of its
    class, and a memory with the one-cell argument array of an event that
    refers to it. *)
Definition surface_proxy : Proxy.t :=
  {| Proxy.oid := 7; Proxy._ptr := Some 8192%N; Proxy._display := Some 1%N;
     Proxy.user_data := None; Proxy._handle := None |}.

Definition surface_registry (iface : Interface.t) : option (gmap N Proxy.t) :=
  Some {[ 8192%N := surface_proxy ]}.

Definition event_memory : memory :=
  {| next := 8200; blocks := {[ 4096%N := ArgumentCells [8192] ]} |}.

(** The entry of the [types] array for a marshaled argument. *)
Definition interface_pointer (argument : Argument.t) : N :=
  match Argument.interface argument with
  | None => 0%N
  | Some iface => Interface._ptr iface
  end.

Definition other_proxy : Proxy.t :=
  {| Proxy.oid := 9; Proxy._ptr := Some 12288%N; Proxy._display := Some 1%N;
     Proxy.user_data := None; Proxy._handle := None |}.

(** ** Predicates on the codec's values *)

(** The Python value the decoder produces for an argument: an int in the
    range of the C member for the numbers, a float for Fixed, a str for a
    string, bytes for an array, a proxy for an object, and [None] only for a
    nullable string or object; nothing for a new id. *)
Definition decoded_as (a : Argument.t) (v : pyvalue) : bool :=
  match Argument.argument_type a, v with
  | ArgumentType.Int, PyInt n => (- 2 ^ 31 <=? n) && (n <? 2 ^ 31)
  | ArgumentType.FileDescriptor, PyInt n => (- 2 ^ 31 <=? n) && (n <? 2 ^ 31)
  | ArgumentType.Uint, PyInt n => (0 <=? n) && (n <? 2 ^ 32)
  | ArgumentType.Fixed, PyFloat _ => true
  | ArgumentType.String, PyStr _ => true
  | ArgumentType.String, PyNone => Argument.nullable a
  | ArgumentType.Object, PyProxy _ => true
  | ArgumentType.Object, PyNone => Argument.nullable a
  | ArgumentType.Array, PyBytes _ => true
  | _, _ => false
  end.

(** The marshaled arguments for which the encoder takes [next(arg_iter)]. *)
Definition takes_argument (a : Argument.t) : bool :=
  if decide (Argument.argument_type a = ArgumentType.NewId) then false else true.

(** The values the encoder accepts for a number or a string and gives back
    on decoding: an int in the range of the member, a text without NUL. *)
Definition plain_value (a : Argument.t) (v : pyvalue) : bool :=
  match Argument.argument_type a, v with
  | ArgumentType.Int, PyInt n => (- 2 ^ 31 <=? n) && (n <? 2 ^ 31)
  | ArgumentType.FileDescriptor, PyInt n => (- 2 ^ 31 <=? n) && (n <? 2 ^ 31)
  | ArgumentType.Uint, PyInt n => (0 <=? n) && (n <? 2 ^ 32)
  | ArgumentType.String, PyStr text =>
      forallb (fun c => negb (Byte.eqb c x00)) (str_encode text)
  | _, _ => false
  end.

(** The cell [c] holds the value [v] of the argument [a] in the memory [m]. *)
Definition cell_holds (m : memory) (a : Argument.t) (v : pyvalue) (c : Z) : Prop :=
  match Argument.argument_type a, v with
  | ArgumentType.Int, PyInt n => get_i c = n
  | ArgumentType.FileDescriptor, PyInt n => get_i c = n
  | ArgumentType.Uint, PyInt n => get_u c = n
  | ArgumentType.String, PyStr text =>
      get_ptr c <> 0%N
      /\ exists bytes, blocks m !! get_ptr c = Some (Chars bytes)
                       /\ until_nul bytes = Some (str_encode text)
  | _, _ => False
  end.

(** Everything allocated below [bound] and everything outside the C memory
    is the same in [s] and [s'], but for [weakkeydict] at [key]. *)
Definition unchanged_below (bound key : N) (s s' : state) : Prop :=
  (forall q, (q < bound)%N -> blocks (mem s') !! q = blocks (mem s) !! q)
  /\ (next (mem s) <= next (mem s'))%positive
  /\ (forall q, q <> key -> weakkeydict s' !! q = weakkeydict s !! q)
  /\ dispatcher_to_object s' = dispatcher_to_object s
  /\ lib_calls s' = lib_calls s
  /\ next_oid s' = next_oid s.

(** The cell [c] of the array at [p] holds the value [v] in [s], and the
    buffer of a string is an allocated block other than the array. *)
Definition cell_stored (p : N) (s : state) (a : Argument.t) (v : pyvalue) (c : Z) : Prop :=
  cell_holds (mem s) a v c
  /\ (Argument.argument_type a = ArgumentType.String ->
      get_ptr c <> p /\ (get_ptr c < Npos (next (mem s)))%N).

(** ** utils.py: [AnonymousFile] *)

Module AnonymousFile.

(** The exceptions the methods raise: [IOError] from the class, [OSError]
    from [os.close] on a descriptor that is not open, [TypeError] from a
    call with a missing or a [None] argument, [OverflowError] from cffi when
    the size does not fit [off_t]. *)
Inductive error : Type :=
| IOError (msg : string)
| OSError
| TypeError
| OverflowError.

(** The attributes of the object. *)
Record t : Type := {
  size : Z;
  fd : option Z
}.

(** A call ends with a value or an exception, the object as the call left
    it, and the set of descriptors that are open in the process. *)
Definition outcome (A : Type) : Type := (error + A) * t * gset Z.

Definition __init__ (size : Z) : t := {| size := size; fd := None |}.

(** [os.close(d)] *)
Definition os_close (d : Z) (os : gset Z) : (error + unit) * gset Z :=
  if decide (d ∈ os) then (inr tt, os ∖ {[d]}) else (inl OSError, os).

Section Methods.

(** [lib.os_create_anonymous_file(size)]: the descriptor it returns, or a
    negative value, given the descriptors that are open. *)
Variable os_create_anonymous_file : Z -> gset Z -> Z.

(** [open(self, size)]: the parameter [size] is not used, the file is
    created with [self.size]; [self.fd] is assigned before it is tested. *)
Definition open (self : t) (size : Z) (os : gset Z) : outcome unit :=
  match fd self with
  | Some _ => (inl (IOError "File is already open"), self, os)
  | None =>
      if (- 2 ^ 63 <=? AnonymousFile.size self) && (AnonymousFile.size self <? 2 ^ 63) then
        let d := os_create_anonymous_file (AnonymousFile.size self) os in
        let self' := {| size := AnonymousFile.size self; fd := Some d |} in
        if d <? 0 then (inl (IOError "Unable to create anonymous file"), self', os)
        else (inr tt, self', {[d]} ∪ os)
      else (inl OverflowError, self, os)
  end.

Definition close (self : t) (os : gset Z) : outcome unit :=
  match fd self with
  | None => (inr tt, self, os)
  | Some d =>
      match os_close d os with
      | (inr _, os1) => (inr tt, {| size := size self; fd := None |}, os1)
      | (inl e, os1) => (inl e, self, os1)
      end
  end.

Definition __del__ (self : t) (os : gset Z) : outcome unit :=
  match fd self with
  | Some d =>
      match os_close d os with
      | (inr _, os1) => (inr tt, {| size := size self; fd := None |}, os1)
      | (inl e, os1) => (inl e, self, os1)
      end
  | None => (inr tt, self, os)
  end.

(** [__exit__] closes [self.fd] and leaves it set. *)
Definition __exit__ (self : t) (os : gset Z) : outcome unit :=
  match fd self with
  | None => (inl TypeError, self, os)
  | Some d =>
      match os_close d os with
      | (inr _, os1) => (inr tt, self, os1)
      | (inl e, os1) => (inl e, self, os1)
      end
  end.

End Methods.
End AnonymousFile.

(** ** scanner: names and values of the generated code *)

Module Text.

(** [str.upper] and [str.lower] on one character, for ASCII text (the
    properties below are stated for ASCII text only). *)
Definition upper (c : ascii) : ascii :=
  let n := nat_of_ascii c in
  if ((97 <=? n) && (n <=? 122))%nat then ascii_of_nat (n - 32) else c.

Definition lower (c : ascii) : ascii :=
  let n := nat_of_ascii c in
  if ((65 <=? n) && (n <=? 90))%nat then ascii_of_nat (n + 32) else c.

Definition is_lower (c : ascii) : bool :=
  let n := nat_of_ascii c in ((97 <=? n) && (n <=? 122))%nat.

Fixpoint map_string (f : ascii -> ascii) (s : string) : string :=
  match s with
  | EmptyString => EmptyString
  | String c r => String (f c) (map_string f r)
  end.

(** [s.capitalize()] *)
Definition capitalize (s : string) : string :=
  match s with
  | EmptyString => EmptyString
  | String c r => String (upper c) (map_string lower r)
  end.

(** [s.split('_')]: the pieces between underscores, empty pieces included. *)
Fixpoint split_underscore (s : string) : list string :=
  match s with
  | EmptyString => [EmptyString]
  | String c r =>
      if Ascii.eqb c "_" then EmptyString :: split_underscore r
      else match split_underscore r with
           | piece :: pieces => String c piece :: pieces
           | [] => [String c EmptyString]
           end
  end.

Definition is_ascii (s : string) : bool :=
  forallb (fun c => (nat_of_ascii c <? 128)%nat) (list_ascii_of_string s).

Definition no_underscore (s : string) : bool :=
  forallb (fun c => negb (Ascii.eqb c "_")) (list_ascii_of_string s).

Definition count_underscore (s : string) : nat :=
  length (filter (fun c => c = "_"%char) (list_ascii_of_string s)).

End Text.

(** The failure of an [assert]. *)
Inductive assertion : Type := AssertionError.

(** [Argument.interface_class] of scanner/argument.py. *)
Definition interface_class (self : Scanner.Argument) : assertion + string :=
  match Scanner.interface self with
  | None => inl AssertionError
  | Some interface =>
      inr (String.concat "" (map Text.capitalize (Text.split_underscore interface)))
  end.

(** The value of an enum entry as [Entry.output] of scanner/entry.py writes
    it: [value[:2] == "0x"] selects the hexadecimal values, whose digits
    after the prefix are put in upper case. *)
Definition entry_value (value : string) : string :=
  match value with
  | String "0" (String "x" digits) => String "0" (String "x" (Text.map_string Text.upper digits))
  | _ => value
  end.

Section EntryOutput.

(** Whether [int(self.name)] returns rather than raises ValueError. *)
Variable int_accepts : string -> bool.

(** [Entry.output(self, enum_name, printer)], as the line it prints. *)
Definition Entry_output (name value enum_name : string) : string :=
  let value := entry_value value in
  if int_accepts name then (enum_name ++ "_" ++ name ++ " = " ++ value)%string
  else ((if String.eqb name "name" then "name_" else name) ++ " = " ++ value)%string.

End EntryOutput.

(** The scanned argument [self] with [allow-null] read as [v]. *)
Definition with_allow_null (self : Scanner.Argument) (v : option string)
  : Scanner.Argument :=
  {| Scanner.name := Scanner.name self; Scanner.type := Scanner.type self;
     Scanner.summary := Scanner.summary self;
     Scanner.interface := Scanner.interface self; Scanner.allow_null := v;
     Scanner.enum := Scanner.enum self |}.

(** * Properties *)

(** ** Signatures *)

Lemma concat_empty_cons (s : string) (l : list string) :
  String.concat "" (s :: l) = (s ++ String.concat "" l)%string.
Proof.
  destruct l as [|t l]; simpl; [|reflexivity].
  induction s as [|x s IH]; [reflexivity|].
  change (String x s ++ "")%string with (String x (s ++ ""))%string.
  now rewrite <- IH.
Qed.

Lemma scanner_signature_of_scanner (a : Scanner.Argument) (ka : Spec.kind * bool) :
  Spec.of_scanner a = Some ka ->
  Scanner.signature a = Ok (Spec.argument_signature ka).
Proof.
  unfold Spec.of_scanner, Scanner.signature, Scanner.type_to_string,
    Spec.argument_signature.
  repeat (destruct (String.eqb (Scanner.type a) _);
          [intros [= <-]; simpl; destruct (truthy_str (Scanner.allow_null a));
           try destruct (truthy_str (Scanner.interface a)); reflexivity |]).
  discriminate.
Qed.

Lemma scanner_signature_invalid (a : Scanner.Argument) :
  Spec.of_scanner a = None ->
  Scanner.signature a = Raise (RuntimeError ("Invalid argument type: " ++ Scanner.type a)).
Proof.
  unfold Spec.of_scanner, Scanner.signature, Scanner.type_to_string.
  repeat (destruct (String.eqb (Scanner.type a) _); [discriminate |]).
  intros _. destruct (truthy_str (Scanner.allow_null a)); reflexivity.
Qed.

Lemma join_signatures_scanner (arguments : list Scanner.Argument)
    (ks : list (Spec.kind * bool)) :
  mapM Spec.of_scanner arguments = Some ks ->
  join_signatures Scanner.signature arguments
  = Ok (String.concat "" (map Spec.argument_signature ks)).
Proof.
  revert ks. induction arguments as [|a rest IH]; intros ks H.
  - injection H as <-. reflexivity.
  - simpl in H. destruct (Spec.of_scanner a) as [ka|] eqn:Ha; [|discriminate].
    simpl in H. destruct (mapM Spec.of_scanner rest) as [ks'|]; [|discriminate].
    injection H as <-. simpl join_signatures.
    rewrite (scanner_signature_of_scanner a ka Ha), (IH ks' eq_refl).
    rewrite map_cons, concat_empty_cons. reflexivity.
Qed.

Lemma join_signatures_scanner_invalid (arguments : list Scanner.Argument) :
  mapM Spec.of_scanner arguments = None ->
  is_Ok (join_signatures Scanner.signature arguments) = false.
Proof.
  induction arguments as [|a rest IH]; intros H; [discriminate|].
  simpl in H. simpl join_signatures.
  destruct (Spec.of_scanner a) as [ka|] eqn:Ha.
  - rewrite (scanner_signature_of_scanner a ka Ha). simpl in *.
    destruct (mapM Spec.of_scanner rest); [discriminate|].
    specialize (IH eq_refl).
    destruct (join_signatures Scanner.signature rest); [discriminate | reflexivity].
  - rewrite (scanner_signature_invalid a Ha). reflexivity.
Qed.

Lemma argument_signature_of_argument (a : Argument.t) :
  Argument.signature a = Spec.argument_signature (Spec.of_argument a).
Proof.
  destruct a as [ty n i]. unfold Argument.signature, Argument.type_chars,
    Spec.argument_signature, Spec.of_argument. simpl.
  destruct ty, n, i; reflexivity.
Qed.

Lemma join_signatures_argument (arguments : list Argument.t) :
  join_signatures (fun a => Ok (Argument.signature a)) arguments
  = Ok (String.concat "" (map Spec.argument_signature (map Spec.of_argument arguments))).
Proof.
  induction arguments as [|a rest IH]; [reflexivity|].
  simpl join_signatures. rewrite IH. rewrite !map_cons, concat_empty_cons.
  rewrite argument_signature_of_argument. reflexivity.
Qed.

Lemma message_signature_of_arguments (self : Message.t) :
  Message.signature self
  = Ok (Spec.message_signature (map Spec.of_argument (Message.arguments self))
          (Message.version self)).
Proof.
  unfold Message.signature, message_signature, Spec.message_signature.
  rewrite join_signatures_argument. simpl. destruct (Message.version self); reflexivity.
Qed.

(** C2. The signature the code computes is the concatenation of the
    arguments' signature characters, each prefixed with a question mark when
    the argument is nullable, the whole prefixed with the version number
    when the message is versioned: for scanned arguments (an unrecognized
    type string makes the computation fail), and for the arguments of a
    [Message].  The arguments [Int32, nullable Object] give "i?o". *)
Theorem C2_signature_is_concatenation :
  (forall (arguments : list Scanner.Argument) (version : option Z),
      match mapM Spec.of_scanner arguments with
      | Some ks =>
          message_signature Scanner.signature arguments version
          = Ok (Spec.message_signature ks version)
      | None => is_Ok (message_signature Scanner.signature arguments version) = false
      end)
  /\ (forall self : Message.t,
         Message.signature self
         = Ok (Spec.message_signature (map Spec.of_argument (Message.arguments self))
                 (Message.version self)))
  /\ message_signature Scanner.signature
       [scanned "int" None None; scanned "object" (Some "wl_surface") (Some "true")]
       None = Ok "i?o"
  /\ Message.signature
       (Message.__init__ "enter"
          [Argument.make ArgumentType.Int;
           {| Argument.argument_type := ArgumentType.Object;
              Argument.nullable := true;
              Argument.interface := Some wl_surface |}] None) = Ok "i?o".
Proof.
  split; [|split; [|split; reflexivity]].
  - intros arguments version. unfold message_signature, Spec.message_signature.
    destruct (mapM Spec.of_scanner arguments) as [ks|] eqn:H.
    + rewrite (join_signatures_scanner arguments ks H). simpl.
      destruct version; reflexivity.
    + pose proof (join_signatures_scanner_invalid arguments H) as E.
      destruct (join_signatures Scanner.signature arguments); [discriminate | reflexivity].
  - apply message_signature_of_arguments.
Qed.

(** ** Running the state and error monad *)

Lemma bind_Ok {A B} (c : M A) (k : A -> M B) (s : state) (b : B) (s' : state) :
  (c ≫= k) s = Ok (b, s') ->
  exists a s1, c s = Ok (a, s1) /\ k a s1 = Ok (b, s').
Proof.
  unfold mbind, M_bind. destruct (c s) as [[a s1]|e]; [|discriminate].
  intros H. exists a, s1. split; [reflexivity | exact H].
Qed.

Lemma mret_Ok {A} (a b : A) (s s' : state) :
  (mret a : M A) s = Ok (b, s') -> b = a /\ s' = s.
Proof. unfold mret, M_ret. intros [= -> ->]. split; reflexivity. Qed.

Lemma lift_Ok {A} (r : result A) (a : A) (s s' : state) :
  lift r s = Ok (a, s') -> r = Ok a /\ s' = s.
Proof. unfold lift. destruct r; [|discriminate]. intros [= -> ->]. split; reflexivity. Qed.

Lemma bind_run {A B} (c : M A) (k : A -> M B) (s : state) (a : A) (s1 : state)
    (r : result (B * state)) :
  c s = Ok (a, s1) -> k a s1 = r -> (c ≫= k) s = r.
Proof. intros Hc Hk. unfold mbind, M_bind. rewrite Hc. exact Hk. Qed.

Lemma bind_raise {A B} (c : M A) (k : A -> M B) (s : state) (e : exn) :
  c s = Raise e -> (c ≫= k) s = Raise e.
Proof. intros Hc. unfold mbind, M_bind. rewrite Hc. reflexivity. Qed.

Lemma write_cell_run (a : N) (i : nat) (f : Z -> Z) (s : state) (cells : list Z) (c : Z) :
  blocks (mem s) !! a = Some (ArgumentCells cells) ->
  cells !! i = Some c ->
  write_cell a i f s
  = Ok (tt, with_mem {| next := next (mem s);
                        blocks := <[a := ArgumentCells (<[i := f c]> cells)]> (blocks (mem s)) |} s).
Proof. intros Ha Hi. unfold write_cell. rewrite Ha, Hi. reflexivity. Qed.

(** Inversion of a successful computation, one bind at a time. *)
Ltac invM :=
  repeat match goal with
    | H : (_ ≫= _) _ = Ok _ |- _ =>
        let a := fresh "a" in let s1 := fresh "s" in
        let H1 := fresh "H" in let H2 := fresh "H" in
        apply bind_Ok in H; destruct H as (a & s1 & H1 & H2)
    | H : mret _ _ = Ok _ |- _ => apply mret_Ok in H; destruct H as [? ?]; subst
    | H : lift _ _ = Ok _ |- _ => apply lift_Ok in H; destruct H as [? ?]; subst
    | H : raise _ _ = Ok _ |- _ => discriminate H
    end.

Ltac norm_state :=
  cbn [mem blocks with_mem next weakkeydict dispatcher_to_object lib_calls next_oid].

Ltac solve_lookup :=
  norm_state;
  repeat (rewrite lookup_insert_ne by lia);
  first [ rewrite lookup_insert_eq; reflexivity | eassumption | reflexivity ].

(** Forward evaluation of a computation whose branches are determined. *)
Ltac run :=
  lazymatch goal with
  | |- (_ ≫= _) _ = _ =>
      first [ eapply bind_run; [ run | cbv beta; norm_state; run ]
            | eapply bind_raise; run ]
  | |- write_cell _ _ _ _ = _ => eapply write_cell_run; [ solve_lookup | reflexivity ]
  | |- (if (0 <? length _)%nat then _ else _) _ = _ =>
      progress cbn [Nat.ltb Nat.leb length app]; run
  | |- (if negb _ then _ else _) _ = _ => progress cbn [negb]; run
  | |- _ => reflexivity
  end.

(** ** Cells *)

Lemma set_low32_zero (v : Z) : 0 <= v < 2 ^ 32 -> set_low32 v 0 = v.
Proof.
  intros H. unfold set_low32. rewrite Z.mod_0_l by lia. rewrite Z.mod_small by lia. lia.
Qed.

Lemma to_uint32_Ok (n : Z) : 0 <= n < 2 ^ 32 -> to_uint32 (PyInt n) = Ok n.
Proof.
  intros H. unfold to_uint32.
  destruct (0 <=? n) eqn:E1; [|lia]. destruct (n <? 2 ^ 32) eqn:E2; [|lia]. reflexivity.
Qed.

Lemma to_int32_Ok (n : Z) : - 2 ^ 31 <= n < 2 ^ 31 -> to_int32 (PyInt n) = Ok n.
Proof.
  intros H. unfold to_int32.
  destruct (- 2 ^ 31 <=? n) eqn:E1; [|lia]. destruct (n <? 2 ^ 31) eqn:E2; [|lia].
  reflexivity.
Qed.

(** ** The end-to-end scenario *)

(** C1, as the code has it.  The cells for the unbound new id's interface
    name and version are taken from the caller's argument list: with
    [(n, name, version)] the encoder yields the four cells
    [n], a pointer to the NUL-terminated name, [version] and the null
    placeholder, and the signature is "usun"; with [(n,)] alone the iterator
    over the arguments is exhausted at the string cell. *)
Theorem C1_bind_takes_name_and_version_from_caller
    (n version : Z) (iface_name : string) (s : state) :
  0 <= n < 2 ^ 32 -> 0 <= version < 2 ^ 32 ->
  Message.signature bind_message = Ok "usun"
  /\ (exists p sp s',
         arguments_to_c bind_message [PyInt n; PyStr iface_name; PyInt version] s
         = Ok (p, s')
         /\ blocks (mem s') !! p = Some (ArgumentCells [n; Z.of_N sp; version; 0])
         /\ sp <> 0%N
         /\ blocks (mem s') !! sp = Some (Chars (str_encode iface_name ++ [x00])))
  /\ arguments_to_c bind_message [PyInt n] s = Raise StopIteration.
Proof.
  intros Hn Hv. split; [reflexivity|]. split.
  - exists (Npos (next (mem s))),
      (Npos (next (mem s) + sizeof (ArgumentCells (repeat 0 4)))).
    eexists. split; [|split; [|split]].
    + unfold arguments_to_c.
      change (Message._marshaled_arguments bind_message)
        with [Argument.make ArgumentType.Uint; Argument.make ArgumentType.String;
              Argument.make ArgumentType.Uint; Argument.make ArgumentType.NewId].
      simpl arguments_to_c_from. unfold argument_to_c.
      simpl Argument.argument_type. cbv iota.
      rewrite (to_uint32_Ok n Hn), (to_uint32_Ok version Hv).
      run.
    + norm_state. rewrite lookup_insert_eq. cbn [repeat list_insert insert].
      rewrite !set_low32_zero by lia. reflexivity.
    + discriminate.
    + solve_lookup.
  - unfold arguments_to_c.
    change (Message._marshaled_arguments bind_message)
      with [Argument.make ArgumentType.Uint; Argument.make ArgumentType.String;
            Argument.make ArgumentType.Uint; Argument.make ArgumentType.NewId].
    simpl arguments_to_c_from. unfold argument_to_c.
    simpl Argument.argument_type. cbv iota.
    rewrite (to_uint32_Ok n Hn).
    run.
Qed.

Lemma C1_witness :
  Message.signature bind_message = Ok "usun"
  /\ (exists p sp s',
         arguments_to_c bind_message [PyInt 7; PyStr "wl_compositor"; PyInt 4] initial_state
         = Ok (p, s')
         /\ blocks (mem s') !! p = Some (ArgumentCells [7; Z.of_N sp; 4; 0])
         /\ sp <> 0%N
         /\ blocks (mem s') !! sp = Some (Chars (str_encode "wl_compositor" ++ [x00])))
  /\ arguments_to_c bind_message [PyInt 7] initial_state = Raise StopIteration.
Proof.
  apply (C1_bind_takes_name_and_version_from_caller 7 4 "wl_compositor" initial_state); lia.
Defined.

Lemma C1_counterexample :
  ~ (exists p s', arguments_to_c bind_message [PyInt 7] initial_state = Ok (p, s')).
Proof. intros (p & s' & H). vm_compute in H. discriminate H. Qed.

(** ** The marshaled layout *)

Lemma write_cell_cells_at a n b i f s u s' :
  cells_at a n s -> write_cell b i f s = Ok (u, s') -> cells_at a n s'.
Proof.
  intros [[cells [Hc Hl]] Hlt]. unfold write_cell.
  destruct (blocks (mem s) !! b) as [[| | | |cs|]|] eqn:Hb; try discriminate.
  destruct (cs !! i) as [c|] eqn:Hi; [|discriminate].
  unfold store. intros [= _ <-]. split; [|exact Hlt]. simpl.
  destruct (decide (b = a)) as [->|Hne].
  - rewrite lookup_insert_eq. rewrite Hc in Hb. injection Hb as <-.
    eexists. split; [reflexivity|]. rewrite length_insert. exact Hl.
  - rewrite lookup_insert_ne by exact Hne. exists cells. split; assumption.
Qed.

Lemma ffi_new_cells_at a n b s p s' :
  cells_at a n s -> ffi_new b s = Ok (p, s') -> cells_at a n s' /\ p <> a.
Proof.
  intros [[cells [Hc Hl]] Hlt]. unfold ffi_new. intros [= <- <-]. simpl.
  split; [|lia].
  split; [|simpl; lia]. simpl. exists cells. split; [|exact Hl].
  rewrite lookup_insert_ne by lia. exact Hc.
Qed.

Lemma store_cells_at a n p b s u s' :
  cells_at a n s -> p <> a -> store p b s = Ok (u, s') -> cells_at a n s'.
Proof.
  intros [[cells [Hc Hl]] Hlt] Hne. unfold store. intros [= _ <-]. simpl.
  split; [|exact Hlt]. simpl. exists cells.
  split; [|exact Hl]. rewrite lookup_insert_ne by exact Hne. exact Hc.
Qed.

Ltac cells_step :=
  match goal with
  | Hc : cells_at ?a ?n ?s, H : write_cell _ _ _ ?s = Ok _ |- _ =>
      apply (write_cell_cells_at _ _ _ _ _ _ _ _ Hc) in H
  | Hc : cells_at ?a ?n ?s, H : ffi_new _ ?s = Ok _ |- _ =>
      apply (ffi_new_cells_at _ _ _ _ _ _ Hc) in H; destruct H as [? ?]
  | Hc : cells_at ?a ?n ?s, Hne : ?p <> ?a, H : store ?p _ ?s = Ok _ |- _ =>
      apply (store_cells_at _ _ _ _ _ _ _ Hc Hne) in H
  end.

Lemma argument_to_c_cells_at a n i argument arg refs s r s' :
  cells_at a n s -> argument_to_c a i argument arg refs s = Ok (r, s') -> cells_at a n s'.
Proof.
  intros Hc. unfold argument_to_c.
  destruct (Argument.argument_type argument); intros H;
    try (destruct arg; try discriminate H);
    try (destruct (negb (Argument.nullable argument)); [discriminate H|]);
    try (destruct (Proxy._ptr p); [|discriminate H]);
    invM; repeat cells_step; assumption.
Qed.

Lemma arguments_to_c_from_cells_at a n marshaled : forall i arg_iter refs s r s',
  cells_at a n s -> arguments_to_c_from a i marshaled arg_iter refs s = Ok (r, s') ->
  cells_at a n s'.
Proof.
  induction marshaled as [|argument rest IH]; intros i arg_iter refs s r s' Hc H.
  - simpl in H. invM. exact Hc.
  - simpl in H. destruct (decide _).
    + invM. cells_step. eauto.
    + destruct arg_iter as [|arg arg_iter']; [discriminate H|].
      invM. eapply IH; [|eassumption]. eauto using argument_to_c_cells_at.
Qed.

Lemma arguments_to_c_Ok self args s p s' :
  arguments_to_c self args s = Ok (p, s') ->
  exists s0 refs s1,
    ffi_new (ArgumentCells (repeat 0 (length (Message._marshaled_arguments self)))) s
    = Ok (p, s0)
    /\ arguments_to_c_from p 0 (Message._marshaled_arguments self) args [] s0 = Ok (refs, s1)
    /\ mem s' = mem s1.
Proof.
  unfold arguments_to_c. intros H.
  apply bind_Ok in H. destruct H as (p' & s0 & Hnew & H).
  apply bind_Ok in H. destruct H as (refs & s1 & Hloop & H).
  apply bind_Ok in H. destruct H as (u & s2 & Hweak & H).
  apply mret_Ok in H. destruct H as [-> ->].
  exists s0, refs, s1. repeat split; try assumption.
  destruct (0 <? length refs)%nat.
  - unfold set_weakkeydict in Hweak. injection Hweak as <- <-. reflexivity.
  - apply mret_Ok in Hweak. destruct Hweak as [_ ->]. reflexivity.
Qed.

Lemma arguments_to_c_layout self args s p s' :
  arguments_to_c self args s = Ok (p, s') ->
  exists cells, blocks (mem s') !! p = Some (ArgumentCells cells)
                /\ length cells = length (Message._marshaled_arguments self).
Proof.
  intros H. apply arguments_to_c_Ok in H.
  destruct H as (s0 & refs & s1 & Hnew & Hloop & ->).
  assert (Hc : cells_at p (length (Message._marshaled_arguments self)) s0).
  { unfold ffi_new in Hnew. injection Hnew as <- <-. split; [|simpl; lia]. simpl.
    eexists. split; [apply lookup_insert_eq|]. apply repeat_length. }
  exact (proj1 (arguments_to_c_from_cells_at _ _ _ _ _ _ _ _ _ Hc Hloop)).
Qed.

Lemma marshaled_app l1 l2 :
  Message.marshaled (l1 ++ l2) = (Message.marshaled l1 ++ Message.marshaled l2)%list.
Proof. induction l1 as [|a l1 IH]; simpl; [reflexivity|]. now rewrite IH, app_assoc. Qed.

Lemma marshaled_length l :
  length (Message.marshaled l)
  = (length l + 2 * length (filter (fun a => Spec.unbound a = true) l))%nat.
Proof.
  induction l as [|a l IH]; [reflexivity|].
  simpl Message.marshaled. rewrite length_app, IH, filter_cons.
  unfold Message.expand, Spec.unbound.
  destruct (Argument.interface a), (Argument.argument_type a); simpl; lia.
Qed.

Lemma expand_contains a : [a] `sublist_of` Message.expand a.
Proof.
  unfold Message.expand.
  destruct (Argument.interface a), (Argument.argument_type a);
    repeat first [ reflexivity | apply sublist_cons ].
Qed.

Lemma declared_sublist_marshaled l : l `sublist_of` Message.marshaled l.
Proof.
  induction l as [|a l IH]; [reflexivity|].
  simpl. change (a :: l) with ([a] ++ l)%list.
  apply sublist_app; [apply expand_contains | exact IH].
Qed.

(** C3. An unbound new id contributes the characters "sun" and the three
    marshaled arguments string, uint, new id; a bound one contributes "n"
    and itself alone.  The expansion is local to each argument, keeps every
    declared argument in order, and gives the argument array two more cells
    for each unbound new id.  Encoding an unbound new id fills the three
    cells with the string, the uint and the null placeholder; encoding a
    bound one fills its one cell with the null placeholder. *)
Theorem C3_unbound_new_id_expands_to_three :
  (forall nullable,
      let a := {| Argument.argument_type := ArgumentType.NewId;
                  Argument.nullable := nullable; Argument.interface := None |} in
      Argument.type_chars a = "sun"
      /\ Message.expand a
         = [Argument.make ArgumentType.String; Argument.make ArgumentType.Uint; a])
  /\ (forall nullable iface,
         let a := {| Argument.argument_type := ArgumentType.NewId;
                     Argument.nullable := nullable; Argument.interface := Some iface |} in
         Argument.type_chars a = "n" /\ Message.expand a = [a])
  /\ (forall allow_null,
         Scanner.type_to_string (scanned "new_id" None allow_null) = Ok "sun")
  /\ (forall c rest allow_null,
         Scanner.type_to_string (scanned "new_id" (Some (String c rest)) allow_null) = Ok "n")
  /\ (forall l1 a l2,
         Message.marshaled (l1 ++ a :: l2)
         = (Message.marshaled l1 ++ Message.expand a ++ Message.marshaled l2)%list)
  /\ (forall self : Message.t,
         Message.arguments self `sublist_of` Message._marshaled_arguments self)
  /\ (forall (self : Message.t) args s p s',
         arguments_to_c self args s = Ok (p, s') ->
         exists cells,
           blocks (mem s') !! p = Some (ArgumentCells cells)
           /\ length cells
              = (length (Message.arguments self)
                 + 2 * length (filter (fun a => Spec.unbound a = true)
                                 (Message.arguments self)))%nat)
  /\ (forall nullable (text : string) (v : Z) (s : state),
         0 <= v < 2 ^ 32 ->
         exists p sp s',
           arguments_to_c (single (argument ArgumentType.NewId nullable None))
             [PyStr text; PyInt v] s = Ok (p, s')
           /\ blocks (mem s') !! p = Some (ArgumentCells [Z.of_N sp; v; 0])
           /\ blocks (mem s') !! sp = Some (Chars (str_encode text ++ [x00])))
  /\ (forall nullable iface (s : state),
         exists p s',
           arguments_to_c (single (argument ArgumentType.NewId nullable (Some iface)))
             [] s = Ok (p, s')
           /\ blocks (mem s') !! p = Some (ArgumentCells [0])).
Proof.
  split; [|split; [|split; [|split; [|split; [|split; [|split; [|split]]]]]]];
    try (intros; split; reflexivity); try (intros; reflexivity).
  - intros l1 a l2. rewrite marshaled_app. reflexivity.
  - intros self. apply declared_sublist_marshaled.
  - intros self args s p s' H.
    destruct (arguments_to_c_layout self args s p s' H) as (cells & Hc & Hl).
    exists cells. split; [exact Hc|]. rewrite Hl. apply marshaled_length.
  - intros nullable text v s Hv. exists (Npos (next (mem s))),
      (Npos (next (mem s) + sizeof (ArgumentCells (repeat 0 3)))).
    eexists. split; [|split].
    + unfold arguments_to_c.
      change (Message._marshaled_arguments (single (argument ArgumentType.NewId nullable None)))
        with [Argument.make ArgumentType.String; Argument.make ArgumentType.Uint;
              argument ArgumentType.NewId nullable None].
      simpl arguments_to_c_from. unfold argument_to_c.
      simpl Argument.argument_type. cbv iota.
      rewrite (to_uint32_Ok v Hv). run.
    + norm_state. rewrite lookup_insert_eq. cbn [repeat list_insert insert].
      rewrite set_low32_zero by lia. reflexivity.
    + solve_lookup.
  - intros nullable iface s. exists (Npos (next (mem s))). eexists. split.
    + unfold arguments_to_c.
      change (Message._marshaled_arguments
                (single (argument ArgumentType.NewId nullable (Some iface))))
        with [argument ArgumentType.NewId nullable (Some iface)].
      simpl arguments_to_c_from. run.
    + solve_lookup.
Qed.

Lemma C3_witness :
  (exists p s' cells,
      arguments_to_c bind_message [PyInt 7; PyStr "wl_compositor"; PyInt 4] initial_state
      = Ok (p, s')
      /\ blocks (mem s') !! p = Some (ArgumentCells cells)
      /\ length cells = 4%nat)
  /\ (exists p sp s',
         arguments_to_c (single (argument ArgumentType.NewId false None))
           [PyStr "wl_shm"; PyInt 1] initial_state = Ok (p, s')
         /\ blocks (mem s') !! p = Some (ArgumentCells [Z.of_N sp; 1; 0])
         /\ blocks (mem s') !! sp = Some (Chars (str_encode "wl_shm" ++ [x00]))).
Proof.
  destruct C3_unbound_new_id_expands_to_three as (_ & _ & _ & _ & _ & _ & H & H' & _).
  split.
  - destruct (arguments_to_c bind_message [PyInt 7; PyStr "wl_compositor"; PyInt 4]
                initial_state) as [[p s']|e] eqn:E; [|vm_compute in E; discriminate E].
    destruct (H _ _ _ _ _ E) as (cells & Hc & Hl).
    exists p, s', cells. split; [reflexivity|]. split; [exact Hc | exact Hl].
  - apply (H' false "wl_shm" 1 initial_state). lia.
Defined.


(** ** Encoding one argument and decoding it again *)

Lemma marshaled_single ty nullable iface :
  ty <> ArgumentType.NewId ->
  Message._marshaled_arguments (single (argument ty nullable iface))
  = [argument ty nullable iface].
Proof.
  intros H. unfold Message._marshaled_arguments, single. simpl. unfold Message.expand.
  simpl. destruct iface, ty; try reflexivity; contradiction.
Qed.

Lemma get_i_set_low32 (v : Z) : - 2 ^ 31 <= v < 2 ^ 31 -> get_i (set_low32 v 0) = v.
Proof.
  intros H. unfold get_i, set_low32, to_signed32.
  rewrite Z.mod_0_l by lia. rewrite Z.sub_0_r, Z.add_0_l, Z.mod_mod by lia.
  destruct (Z_lt_le_dec v 0) as [Hneg|Hpos].
  - replace (v mod 2 ^ 32) with (v + 2 ^ 32).
    + replace (v + 2 ^ 32 + 2 ^ 31) with (v + 2 ^ 31 + 1 * 2 ^ 32) by lia.
      rewrite Z.mod_add by lia. rewrite Z.mod_small by lia. lia.
    + apply Z.mod_unique with (q := -1); lia.
  - rewrite (Z.mod_small v) by lia. rewrite Z.mod_small by lia. lia.
Qed.

Lemma get_u_set_low32 (v : Z) : 0 <= v < 2 ^ 32 -> get_u (set_low32 v 0) = v.
Proof.
  intros H. unfold get_u. rewrite set_low32_zero by exact H. apply Z.mod_small. exact H.
Qed.

(** The decoder on an array of one cell. *)
Lemma c_to_arguments_single reg a (m : memory) (p : positive) (cell : Z) :
  blocks m !! Npos p = Some (ArgumentCells [cell]) ->
  c_to_arguments reg (single a) m (Npos p)
  = (arg ← c_to_argument reg (single a) m 0 a (Npos p, cell); Ok [arg]).
Proof.
  intros H. unfold c_to_arguments, single.
  cbn [Message.__init__ Message.arguments c_to_arguments_from]. unfold args_index.
  rewrite H. cbn [N.eqb lookup list_lookup]. unfold mbind at 1. unfold result_bind at 1.
  destruct (c_to_argument _ _ _ _ _ _); reflexivity.
Qed.

(** The encoder on a message with one declared argument that is not a new
    id, when the branch for its type leaves the array with the cell [cell]. *)
Ltac encode_single :=
  unfold arguments_to_c;
  rewrite marshaled_single by discriminate;
  cbn [length repeat]; unfold argument;
  simpl arguments_to_c_from;
  unfold argument_to_c; cbn [Argument.argument_type Argument.nullable];
  cbv iota.

Lemma roundtrip_int reg nullable iface (v : Z) (s : state) :
  - 2 ^ 31 <= v < 2 ^ 31 ->
  exists p s',
    arguments_to_c (single (argument ArgumentType.Int nullable iface)) [PyInt v] s
    = Ok (p, s')
    /\ c_to_arguments reg (single (argument ArgumentType.Int nullable iface)) (mem s') p
       = Ok [PyInt v].
Proof.
  intros Hv. exists (Npos (next (mem s))). eexists. split.
  - encode_single. rewrite (to_int32_Ok v Hv). run.
  - erewrite c_to_arguments_single by solve_lookup.
    cbn. rewrite get_i_set_low32 by exact Hv. reflexivity.
Qed.

Lemma roundtrip_uint reg nullable iface (v : Z) (s : state) :
  0 <= v < 2 ^ 32 ->
  exists p s',
    arguments_to_c (single (argument ArgumentType.Uint nullable iface)) [PyInt v] s
    = Ok (p, s')
    /\ c_to_arguments reg (single (argument ArgumentType.Uint nullable iface)) (mem s') p
       = Ok [PyInt v].
Proof.
  intros Hv. exists (Npos (next (mem s))). eexists. split.
  - encode_single. rewrite (to_uint32_Ok v Hv). run.
  - erewrite c_to_arguments_single by solve_lookup.
    cbn. rewrite get_u_set_low32 by exact Hv. reflexivity.
Qed.

Lemma roundtrip_fd reg nullable iface (v : Z) (s : state) :
  - 2 ^ 31 <= v < 2 ^ 31 ->
  exists p s',
    arguments_to_c (single (argument ArgumentType.FileDescriptor nullable iface))
      [PyInt v] s = Ok (p, s')
    /\ c_to_arguments reg (single (argument ArgumentType.FileDescriptor nullable iface))
         (mem s') p = Ok [PyInt v].
Proof.
  intros Hv. exists (Npos (next (mem s))). eexists. split.
  - encode_single. rewrite (to_int32_Ok v Hv). run.
  - erewrite c_to_arguments_single by solve_lookup.
    cbn. rewrite get_i_set_low32 by exact Hv. reflexivity.
Qed.

Lemma until_nul_terminated (b : list byte) :
  Forall (fun c => c <> x00) b -> until_nul (b ++ [x00]) = Some b.
Proof.
  induction 1 as [|c b Hc Hb IH]; [reflexivity|].
  simpl. destruct (Byte.eqb c x00) eqn:E.
  - apply Byte.byte_dec_bl in E. contradiction.
  - rewrite IH. reflexivity.
Qed.

(** A text without a NUL byte comes back unchanged. *)
Lemma roundtrip_string reg nullable iface (text : string) (s : state) :
  Forall (fun c => c <> x00) (str_encode text) ->
  exists p s',
    arguments_to_c (single (argument ArgumentType.String nullable iface)) [PyStr text] s
    = Ok (p, s')
    /\ c_to_arguments reg (single (argument ArgumentType.String nullable iface)) (mem s') p
       = Ok [PyStr text].
Proof.
  intros Hnul. exists (Npos (next (mem s))). eexists. split.
  - encode_single. run.
  - erewrite c_to_arguments_single by solve_lookup.
    unfold c_to_argument, argument. cbn [Argument.argument_type N.eqb].
    unfold ffi_string, set_ptr, get_ptr. cbn [Z.of_N Z.to_N N.eqb].
    norm_state. rewrite lookup_insert_ne by lia. rewrite lookup_insert_eq.
    rewrite (until_nul_terminated _ Hnul). cbn.
    unfold bytes_decode, str_encode. rewrite string_of_list_byte_of_string. reflexivity.
Qed.

(** A text with a NUL byte is cut at it: [ffi.string] stops there. *)
Lemma string_with_nul_is_truncated reg :
  exists p s',
    arguments_to_c (single (Argument.make ArgumentType.String))
      [PyStr (String "a" (String Ascii.zero "b"))] initial_state = Ok (p, s')
    /\ c_to_arguments reg (single (Argument.make ArgumentType.String)) (mem s') p
       = Ok [PyStr "a"].
Proof. do 2 eexists. split; vm_compute; reflexivity. Qed.

(** *** Fixed *)

Lemma to_signed32_small (v : Z) : - 2 ^ 31 <= v < 2 ^ 31 -> to_signed32 v = v.
Proof. intros H. unfold to_signed32. rewrite Z.mod_small by lia. lia. Qed.

Lemma round_half_even_comp (x y : Q) :
  (x == y)%Q -> round_half_even x = round_half_even y.
Proof.
  intros H. unfold round_half_even. rewrite (Qfloor_comp x y H).
  assert (E : ((x - inject_Z (Qfloor y) ?= 1 # 2) = (y - inject_Z (Qfloor y) ?= 1 # 2))%Q).
  { apply Qcompare_comp; [rewrite H|]; reflexivity. }
  rewrite E. reflexivity.
Qed.

Lemma round_half_even_Z (k : Z) : round_half_even (inject_Z k) = k.
Proof.
  unfold round_half_even. rewrite Qfloor_Z.
  assert (E : ((inject_Z k - inject_Z k ?= 1 # 2) = Lt)%Q).
  { apply Qlt_alt. ring_simplify (inject_Z k - inject_Z k)%Q. reflexivity. }
  rewrite E. reflexivity.
Qed.

Lemma round_half_even_near (x : Q) :
  (Qabs (x - inject_Z (round_half_even x)) <= 1 # 2)%Q.
Proof.
  unfold round_half_even.
  pose proof (Qfloor_le x) as Hle. pose proof (Qlt_floor x) as Hlt.
  rewrite inject_Z_plus in Hlt. change (inject_Z 1) with 1%Q in Hlt.
  destruct (x - inject_Z (Qfloor x) ?= 1 # 2)%Q eqn:E.
  - apply Qeq_alt in E.
    destruct (Z.even (Qfloor x)); [|rewrite inject_Z_plus; change (inject_Z 1) with 1%Q];
      apply Qabs_Qle_condition; split; lra.
  - apply Qlt_alt in E. apply Qabs_Qle_condition. split; lra.
  - apply Qgt_alt in E. rewrite inject_Z_plus. change (inject_Z 1) with 1%Q.
    apply Qabs_Qle_condition. split; lra.
Qed.

Lemma wl_fixed_from_double_exact (k : Z) :
  - 2 ^ 31 <= k < 2 ^ 31 -> wl_fixed_from_double (Q2Qc (k # 256)) = k.
Proof.
  intros H. unfold wl_fixed_from_double.
  rewrite (round_half_even_comp _ (inject_Z k)).
  - rewrite round_half_even_Z. apply to_signed32_small. exact H.
  - cbn [this Q2Qc]. rewrite Qred_correct.
    unfold Qeq, Qmult, inject_Z. cbn [Qnum Qden]. lia.
Qed.

(** A value that is a multiple of 1/256 in range comes back unchanged. *)
Lemma roundtrip_fixed_exact reg nullable iface (k : Z) (s : state) :
  - 2 ^ 31 <= k < 2 ^ 31 ->
  exists p s',
    arguments_to_c (single (argument ArgumentType.Fixed nullable iface))
      [PyFloat (Q2Qc (k # 256))] s = Ok (p, s')
    /\ c_to_arguments reg (single (argument ArgumentType.Fixed nullable iface)) (mem s') p
       = Ok [PyFloat (Q2Qc (k # 256))].
Proof.
  intros Hk. exists (Npos (next (mem s))). eexists. split.
  - encode_single. rewrite (wl_fixed_from_double_exact k Hk). run.
  - erewrite c_to_arguments_single by solve_lookup.
    unfold c_to_argument, argument. cbn [Argument.argument_type].
    rewrite get_i_set_low32 by exact Hk. reflexivity.
Qed.

(** An integer is scaled by 256 and comes back as the float of the same
    value. *)
Lemma roundtrip_fixed_int reg nullable iface (n : Z) (s : state) :
  - 2 ^ 23 <= n < 2 ^ 23 ->
  exists p s',
    arguments_to_c (single (argument ArgumentType.Fixed nullable iface)) [PyInt n] s
    = Ok (p, s')
    /\ c_to_arguments reg (single (argument ArgumentType.Fixed nullable iface)) (mem s') p
       = Ok [PyFloat (Q2Qc (n # 1))].
Proof.
  intros Hn. exists (Npos (next (mem s))). eexists. split.
  - encode_single. rewrite to_int32_Ok by lia. cbn [mbind result_bind].
    unfold wl_fixed_from_int. rewrite to_signed32_small by lia. run.
  - erewrite c_to_arguments_single by solve_lookup.
    unfold c_to_argument, argument. cbn [Argument.argument_type].
    rewrite get_i_set_low32 by lia. unfold wl_fixed_to_double.
    cbn [mbind result_bind]. do 3 f_equal. apply Qc_is_canon. cbn [this Q2Qc]. rewrite !Qred_correct.
    unfold Qeq. cbn [Qnum Qden]. lia.
Qed.


Lemma wl_fixed_within (d : Qc) :
  - 2 ^ 31 <= round_half_even (this d * (256 # 1)) < 2 ^ 31 ->
  (Qabs (this d - this (wl_fixed_to_double (wl_fixed_from_double d))) <= 1 # 512)%Q.
Proof.
  intros H. unfold wl_fixed_from_double. rewrite to_signed32_small by exact H.
  pose proof (round_half_even_near (this d * (256 # 1))) as Hnear.
  set (k := round_half_even (this d * (256 # 1))) in *.
  unfold wl_fixed_to_double. cbn [this Q2Qc]. rewrite Qred_correct.
  assert (E : (k # 256 == inject_Z k * (1 # 256))%Q).
  { unfold Qeq, Qmult, inject_Z. cbn [Qnum Qden]. lia. }
  rewrite E. clear E H.
  apply Qabs_Qle_condition in Hnear. destruct Hnear as [H1 H2].
  apply Qabs_Qle_condition. split; lra.
Qed.

(** Any float whose conversion is in range comes back within 1/256. *)
Lemma roundtrip_fixed_within reg nullable iface (d : Qc) (s : state) :
  - 2 ^ 31 <= round_half_even (this d * (256 # 1)) < 2 ^ 31 ->
  exists p s' d',
    arguments_to_c (single (argument ArgumentType.Fixed nullable iface)) [PyFloat d] s
    = Ok (p, s')
    /\ c_to_arguments reg (single (argument ArgumentType.Fixed nullable iface)) (mem s') p
       = Ok [PyFloat d']
    /\ (Qabs (this d - this d') <= 1 # 256)%Q.
Proof.
  intros Hd. exists (Npos (next (mem s))). eexists.
  exists (wl_fixed_to_double (wl_fixed_from_double d)). split; [|split].
  - encode_single. run.
  - erewrite c_to_arguments_single by solve_lookup.
    unfold c_to_argument, argument. cbn [Argument.argument_type].
    rewrite get_i_set_low32; [reflexivity|].
    unfold wl_fixed_from_double. rewrite to_signed32_small by exact Hd. exact Hd.
  - eapply Qle_trans; [apply wl_fixed_within; exact Hd | discriminate].
Qed.

(** ** Arrays *)

Lemma argument_to_c_array (p : N) (i : nat) (a : Argument.t) (arg : pyvalue)
    (refs : list N) (s : state) :
  Argument.argument_type a = ArgumentType.Array ->
  argument_to_c p i a arg refs s
  = Raise (match len arg with
           | Ok _ => ValueError "array item of unknown size: 'void'"
           | Raise e => e
           end).
Proof.
  intros Ht. unfold argument_to_c. rewrite Ht. destruct arg; reflexivity.
Qed.

Lemma arguments_to_c_from_array (p : N) (marshaled : list Argument.t) :
  Exists (fun a => Argument.argument_type a = ArgumentType.Array) marshaled ->
  forall (i : nat) (args : list pyvalue) (refs : list N) (s : state),
    is_Ok (arguments_to_c_from p i marshaled args refs s) = false.
Proof.
  induction marshaled as [|a rest IH]; intros HE i args refs s.
  - inversion HE.
  - cbn [arguments_to_c_from]. destruct (decide _) as [Hnew | Hnew].
    + assert (Hrest : Exists (fun a => Argument.argument_type a = ArgumentType.Array) rest).
      { inversion HE as [? ? Ha | ? ? Hr]; [congruence | exact Hr]. }
      unfold mbind, M_bind. destruct (write_cell p i (set_ptr 0) s) as [[[] s1] | e];
        [apply IH; exact Hrest | reflexivity].
    + destruct args as [|arg args]; [reflexivity|].
      unfold mbind, M_bind.
      destruct (argument_to_c p i a arg refs s) as [[refs1 s1] | e] eqn:E; [|reflexivity].
      inversion HE as [? ? Ha | ? ? Hr].
      * rewrite (argument_to_c_array p i a arg refs s Ha) in E. discriminate E.
      * apply IH. exact Hr.
Qed.

(** C4, at the array branch of the encoder.  The branch asks cffi for a
    [void []], which raises ValueError: a byte blob is never encoded, and a
    message that declares an array argument is never encoded either,
    whatever values it is given, so there is no array that the decoder
    could turn back into the bytes. *)
Theorem C4_array_argument_is_never_encoded (self : Message.t) (a : Argument.t)
    (args : list pyvalue) (b : list byte) (s : state) :
  Argument.argument_type a = ArgumentType.Array ->
  a ∈ Message.arguments self ->
  is_Ok (arguments_to_c self args s) = false
  /\ arguments_to_c (single a) [PyBytes b] s
     = Raise (ValueError "array item of unknown size: 'void'").
Proof.
  intros Ht Hin. split.
  - assert (HE : Exists (fun a => Argument.argument_type a = ArgumentType.Array)
                   (Message._marshaled_arguments self)).
    { apply Exists_exists. exists a. split; [|exact Ht].
      eapply elem_of_sublist; [exact Hin | apply declared_sublist_marshaled]. }
    destruct (arguments_to_c self args s) as [[p s'] | e] eqn:E; [|reflexivity].
    exfalso. unfold arguments_to_c in E. invM.
    match goal with
    | H : arguments_to_c_from ?p ?i ?m ?v ?r ?s0 = Ok _ |- _ =>
        pose proof (arguments_to_c_from_array p m HE i v r s0) as Hloop;
        rewrite H in Hloop; discriminate Hloop
    end.
  - unfold arguments_to_c, Message._marshaled_arguments, single, Message.__init__.
    cbn [Message.arguments Message.marshaled].
    assert (Hexp : Message.expand a = [a]).
    { unfold Message.expand. rewrite Ht. destruct (Argument.interface a); reflexivity. }
    rewrite Hexp. cbn [app length repeat].
    eapply bind_run; [reflexivity|]. cbv beta.
    apply bind_raise. cbn [arguments_to_c_from].
    destruct (decide _) as [Hnew | _]; [congruence|].
    apply bind_raise. rewrite (argument_to_c_array _ _ _ _ _ _ Ht). reflexivity.
Qed.

Lemma C4_witness :
  is_Ok (arguments_to_c (single (argument ArgumentType.Array false None))
           [PyBytes [x01; x02; x03]] initial_state) = false
  /\ arguments_to_c (single (argument ArgumentType.Array false None))
       [PyBytes [x01; x02; x03]] initial_state
     = Raise (ValueError "array item of unknown size: 'void'").
Proof.
  apply (C4_array_argument_is_never_encoded
           (single (argument ArgumentType.Array false None))
           (argument ArgumentType.Array false None)).
  - reflexivity.
  - apply list_elem_of_here.
Defined.

(** ** Null strings and objects *)

(** Encoding [None] for a string or an object is rejected exactly when the
    argument is not nullable. *)
Lemma null_encode_rejected ty iface (s : state) :
  ty = ArgumentType.String \/ ty = ArgumentType.Object ->
  arguments_to_c (single (argument ty false iface)) [PyNone] s = Raise (Exception_ "").
Proof.
  intros [-> | ->]; encode_single; run.
Qed.

Lemma null_encode_accepted ty iface (s : state) :
  ty = ArgumentType.String \/ ty = ArgumentType.Object ->
  exists p s',
    arguments_to_c (single (argument ty true iface)) [PyNone] s = Ok (p, s')
    /\ blocks (mem s') !! p = Some (ArgumentCells [0]).
Proof.
  intros [-> | ->]; exists (Npos (next (mem s))); eexists;
    (split; [encode_single; run | solve_lookup]).
Qed.

(** A null object cell of a nullable argument decodes to [None]. *)
Lemma null_object_roundtrip reg iface (s : state) :
  exists p s',
    arguments_to_c (single (argument ArgumentType.Object true iface)) [PyNone] s
    = Ok (p, s')
    /\ c_to_arguments reg (single (argument ArgumentType.Object true iface)) (mem s') p
       = Ok [PyNone].
Proof.
  exists (Npos (next (mem s))). eexists. split.
  - encode_single. run.
  - erewrite c_to_arguments_single by solve_lookup. reflexivity.
Qed.

(** C5, at the string branch of the decoder.  Encoding [None] for a
    nullable string succeeds and stores the null pointer, but the decoder
    compares the reference to the cell, not its member [s], with NULL: the
    test is never true and [ffi.string] is applied to the null pointer. *)
Theorem C5_null_string_does_not_decode_to_none reg iface (s : state) :
  exists p s',
    arguments_to_c (single (argument ArgumentType.String true iface)) [PyNone] s
    = Ok (p, s')
    /\ blocks (mem s') !! p = Some (ArgumentCells [0])
    /\ c_to_arguments reg (single (argument ArgumentType.String true iface)) (mem s') p
       = Raise (RuntimeError "cannot use string() on NULL").
Proof.
  exists (Npos (next (mem s))). eexists. split; [|split].
  - encode_single. run.
  - solve_lookup.
  - erewrite c_to_arguments_single by solve_lookup. reflexivity.
Qed.


(** ** Objects *)

(** What the object branch of the decoder does once [self.types] exists and
    names an interface whose proxy class has a registry. *)
Lemma object_decode_with_types reg (self : Message.t) (m : memory) (i : nat)
    nullable iface (types : list (option Interface.t)) (iface0 : Interface.t)
    (registry : gmap N Proxy.t) (address : N) (cell : Z) :
  Message.types self = Some types ->
  types !! i = Some (Some iface0) ->
  reg iface0 = Some registry ->
  c_to_argument reg self m i (argument ArgumentType.Object nullable iface) (address, cell)
  = if (get_ptr cell =? 0)%N then
      if nullable then Ok PyNone else Raise (RuntimeError (null_object_message self))
    else
      match Registry.resolve (get_ptr cell) registry with
      | Some obj => Ok (PyProxy obj)
      | None => Raise (RuntimeError "Unable to get object, was it garbage collected?")
      end.
Proof.
  intros Ht Hi Hr. unfold c_to_argument, argument. cbn [Argument.argument_type Argument.nullable].
  destruct (get_ptr cell =? 0)%N; [destruct nullable; reflexivity|].
  unfold types_index. rewrite Ht, Hi. cbn [mbind result_bind]. rewrite Hr. reflexivity.
Qed.

(** C6, at the object branch of the decoder.  [Message.__init__] does not
    set the attribute [types] that the branch reads for a non-null object:
    the lookup in the registry is never reached, whether or not a proxy is
    registered for the identity. *)
Theorem C6_object_decode_reads_unset_types reg (func : string) nullable iface
    (version : option Z) (m : memory) (args_ptr : N) (cell : Z) :
  args_ptr <> 0%N ->
  blocks m !! args_ptr = Some (ArgumentCells [cell]) ->
  get_ptr cell <> 0%N ->
  c_to_arguments reg
    (Message.__init__ func [argument ArgumentType.Object nullable iface] version)
    m args_ptr
  = Raise (AttributeError "types").
Proof.
  intros Hp Hb Hc. unfold c_to_arguments.
  cbn [Message.__init__ Message.arguments c_to_arguments_from]. unfold args_index.
  destruct (args_ptr =? 0)%N eqn:E; [apply N.eqb_eq in E; contradiction|].
  rewrite Hb. cbn [lookup list_lookup mbind result_bind].
  unfold c_to_argument, argument. cbn [Argument.argument_type].
  destruct (get_ptr cell =? 0)%N eqn:E'; [apply N.eqb_eq in E'; contradiction|].
  reflexivity.
Qed.

Lemma C6_witness :
  Registry.resolve 8192 {[ 8192%N := surface_proxy ]} = Some surface_proxy
  /\ c_to_arguments surface_registry
       (Message.__init__ "enter"
          [argument ArgumentType.Object false (Some wl_surface)] None)
       event_memory 4096
     = Raise (AttributeError "types").
Proof.
  split; [reflexivity|].
  apply (C6_object_decode_reads_unset_types surface_registry "enter" false
           (Some wl_surface) None event_memory 4096 8192).
  - discriminate.
  - reflexivity.
  - discriminate.
Defined.

(** ** New ids in events *)

Lemma c_to_arguments_from_new_id reg self (m : memory) (args_ptr : N)
    (a : Argument.t) (arguments : list Argument.t) :
  a ∈ arguments ->
  Argument.argument_type a = ArgumentType.NewId ->
  forall i, is_Ok (c_to_arguments_from reg self m args_ptr i arguments) = false.
Proof.
  intros Hin Ha. induction Hin as [a rest | a b rest Hin IH]; intros i.
  - cbn [c_to_arguments_from].
    destruct (args_index m args_ptr i) as [[address cell]|e]; [|reflexivity].
    cbn [mbind result_bind]. unfold c_to_argument. rewrite Ha. reflexivity.
  - cbn [c_to_arguments_from].
    destruct (args_index m args_ptr i) as [arg_ptr|e]; [|reflexivity].
    cbn [mbind result_bind].
    destruct (c_to_argument reg self m i b arg_ptr) as [arg|e]; [|reflexivity].
    cbn [mbind result_bind]. specialize (IH Ha (S i)).
    destruct (c_to_arguments_from reg self m args_ptr (S i) rest); [discriminate IH|].
    reflexivity.
Qed.

(** C7. The new id branch of the decoder raises, for a bound and for an
    unbound new id alike, and a message that declares a new id argument
    never decodes: the loop fails at that argument if not before. *)
Theorem C7_new_id_event_argument_always_fails :
  (forall reg self (m : memory) (i : nat) (a : Argument.t) (arg_ptr : N * Z),
      Argument.argument_type a = ArgumentType.NewId ->
      c_to_argument reg self m i a arg_ptr = Raise NotImplementedError)
  /\ (forall reg (self : Message.t) (m : memory) (args_ptr : N) (a : Argument.t),
         a ∈ Message.arguments self ->
         Argument.argument_type a = ArgumentType.NewId ->
         exists e, c_to_arguments reg self m args_ptr = Raise e).
Proof.
  split.
  - intros reg self m i a [address cell] Ha. unfold c_to_argument. rewrite Ha. reflexivity.
  - intros reg self m args_ptr a Hin Ha.
    pose proof (c_to_arguments_from_new_id reg self m args_ptr a _ Hin Ha 0%nat) as H.
    unfold c_to_arguments.
    destruct (c_to_arguments_from reg self m args_ptr 0 (Message.arguments self)) as [r|e];
      [discriminate H | exists e; reflexivity].
Qed.

Lemma C7_witness :
  c_to_argument surface_registry
    (single (argument ArgumentType.NewId false None)) event_memory 0
    (argument ArgumentType.NewId false None) (4096%N, 8192)
  = Raise NotImplementedError
  /\ (exists e,
         c_to_arguments surface_registry
           (Message.__init__ "created"
              [argument ArgumentType.Uint false None;
               argument ArgumentType.NewId false (Some wl_surface)] None)
           event_memory 4096 = Raise e).
Proof.
  destruct C7_new_id_event_argument_always_fails as [H1 H2]. split.
  - apply H1. reflexivity.
  - apply (H2 _ _ _ _ (argument ArgumentType.NewId false (Some wl_surface))).
    + cbn [Message.__init__ Message.arguments]. apply list_elem_of_further, list_elem_of_here.
    + reflexivity.
Defined.


(** ** The registry *)

(** C8. After a successful [register] the identity resolves to the proxy
    that was registered, a second [register] of the same identity fails with
    DuplicateIdentity, and after [unregister] the identity resolves to
    nothing. *)
Theorem C8_registry_keeps_one_proxy_per_identity (identity : N)
    (proxyA proxyB : Proxy.t) (registry registry' : gmap N Proxy.t) :
  Registry.register identity proxyA registry = inr registry' ->
  Registry.resolve identity registry' = Some proxyA
  /\ Registry.register identity proxyB registry' = inl Registry.DuplicateIdentity
  /\ Registry.resolve identity (Registry.unregister identity registry') = None.
Proof.
  unfold Registry.register, Registry.resolve, Registry.unregister.
  destruct (registry !! identity) eqn:E; [discriminate|].
  intros [= <-]. rewrite lookup_insert_eq. split; [reflexivity|].
  split; [reflexivity|]. apply lookup_delete_eq.
Qed.

Lemma C8_witness :
  Registry.resolve 5 (<[5%N := surface_proxy]> ∅) = Some surface_proxy
  /\ Registry.register 5 other_proxy (<[5%N := surface_proxy]> ∅)
     = inl Registry.DuplicateIdentity
  /\ Registry.resolve 5 (Registry.unregister 5 (<[5%N := surface_proxy]> ∅)) = None.
Proof.
  apply (C8_registry_keeps_one_proxy_per_identity 5 surface_proxy other_proxy ∅).
  reflexivity.
Defined.

(** ** Proxies *)

Lemma destroy_clears_pointer (self : Proxy.t) :
  truthy_ptr (Proxy._ptr self) = true -> Proxy._ptr (_destroy self) = None.
Proof. intros H. unfold _destroy. rewrite H. reflexivity. Qed.

(** A proxy built around a NULL cdata pointer is left as it is. *)
Lemma destroy_keeps_null_cdata (self : Proxy.t) :
  Proxy._ptr self = Some 0%N -> _destroy self = self.
Proof. intros H. unfold _destroy. rewrite H. reflexivity. Qed.

(** C9. Once [_destroy] has cleared the pointer, [_marshal] and
    [_marshal_constructor] raise before any argument is encoded or any
    request is handed to libwayland. *)
Theorem C9_destroyed_proxy_rejects_marshal
    (requests : list Message.t) (proxy_class_dispatcher : Interface.t -> option N)
    (constructor_result : N -> nat -> N -> N -> N)
    (self : Proxy.t) (opcode : nat) (interface : Interface.t)
    (args : list pyvalue) (s : state) :
  Proxy._ptr (_destroy self) = None ->
  (exists e, _marshal requests (_destroy self) opcode args s = Raise e)
  /\ (exists e,
         _marshal_constructor requests proxy_class_dispatcher constructor_result
           (_destroy self) opcode interface args s = Raise e).
Proof.
  intros H. unfold _marshal, _marshal_constructor, ensure_valid. rewrite H.
  split; eexists; reflexivity.
Qed.

Lemma C9_witness :
  (exists e,
      _marshal [single (Argument.make ArgumentType.Int)] (_destroy surface_proxy)
        0 [PyInt 3] initial_state = Raise e)
  /\ (exists e,
         _marshal_constructor [single (Argument.make ArgumentType.Int)]
           (fun _ => None) (fun _ _ _ _ => 12288%N)
           (_destroy surface_proxy) 0 wl_surface [PyInt 3] initial_state = Raise e).
Proof.
  apply C9_destroyed_proxy_rejects_marshal. reflexivity.
Defined.

(** A live proxy does marshal: the request reaches libwayland. *)
Lemma live_proxy_marshals :
  exists s',
    _marshal [single (Argument.make ArgumentType.Int)] surface_proxy 0 [PyInt 3]
      initial_state = Ok (tt, s')
    /\ lib_calls s' = [wl_proxy_marshal_array 8192 0 4096].
Proof. eexists. split; vm_compute; reflexivity. Qed.

(** C10. A proxy with a pointer and no display is refused with ValueError,
    whatever the class dispatcher; without a pointer the initialisation
    returns early, with [user_data] set to [None], no handle and the shared
    state untouched; and a proxy without a display is built only when its
    pointer is [None]. *)
Theorem C10_proxy_without_display_needs_no_pointer
    (dispatcher : option N) (self : N) (s : state) :
  (forall p : N,
      Proxy___init__ dispatcher self (Some p) None s
      = Raise (ValueError "Non-Display Proxy objects must be associated to a Display"))
  /\ (forall display : option N,
         Proxy___init__ dispatcher self None display s
         = Ok ({| Proxy.oid := self; Proxy._ptr := None; Proxy._display := display;
                  Proxy.user_data := None; Proxy._handle := None |}, s))
  /\ (forall ptr : option N,
         is_Ok (Proxy___init__ dispatcher self ptr None s) = true -> ptr = None).
Proof.
  split; [|split].
  - intros p. reflexivity.
  - intros display. reflexivity.
  - intros [p|] H; [discriminate H | reflexivity].
Qed.

Lemma C10_witness :
  Proxy___init__ (Some 3%N) 1 (Some 8192%N) None initial_state
  = Raise (ValueError "Non-Display Proxy objects must be associated to a Display")
  /\ Proxy.user_data
       (match Proxy___init__ (Some 3%N) 1 None None initial_state with
        | Ok (proxy, _) => proxy
        | Raise _ => surface_proxy
        end) = None
  /\ (None : option N) = None.
Proof.
  destruct (C10_proxy_without_display_needs_no_pointer (Some 3%N) 1 initial_state)
    as (H1 & H2 & H3).
  split; [apply H1|]. split; [rewrite H2; reflexivity|].
  apply H3. reflexivity.
Defined.


(** ** The message struct *)

Lemma build_types_run (types : N) (marshaled : list Argument.t) :
  forall (index : nat) (l : list N) (s : state),
    blocks (mem s) !! types = Some (Pointers l) ->
    length l = (index + length marshaled)%nat ->
    exists s',
      build_types types index marshaled s = Ok (tt, s')
      /\ blocks (mem s') !! types
         = Some (Pointers (take index l ++ map interface_pointer marshaled))
      /\ (forall q, q <> types -> blocks (mem s') !! q = blocks (mem s) !! q).
Proof.
  induction marshaled as [|argument rest IH]; intros index l s Hb Hl.
  - exists s. split; [reflexivity|]. split; [|reflexivity].
    rewrite app_nil_r, firstn_all2 by (simpl in Hl; lia). exact Hb.
  - cbn [build_types].
    set (s1 := with_mem
                 {| next := next (mem s);
                    blocks := <[types := Pointers (<[index := interface_pointer argument]> l)]>
                                (blocks (mem s)) |} s).
    destruct (IH (S index) (<[index := interface_pointer argument]> l) s1)
      as (s' & Hrun & Hb' & Hframe).
    { unfold s1. norm_state. apply lookup_insert_eq. }
    { rewrite length_insert. simpl in Hl. lia. }
    exists s'. split; [|split].
    + eapply bind_run; [reflexivity|]. cbv beta. unfold load in *. rewrite Hb.
      eapply bind_run; [reflexivity|]. exact Hrun.
    + rewrite Hb'. do 2 f_equal.
      assert (Hi : (index < length l)%nat) by (simpl in Hl; lia).
      rewrite (take_S_r _ _ (interface_pointer argument))
        by (apply list_lookup_insert_eq; exact Hi).
      rewrite take_insert_ge by lia. rewrite <- app_assoc. reflexivity.
    + intros q Hq. rewrite (Hframe q Hq). unfold s1. norm_state.
      apply lookup_insert_ne. congruence.
Qed.

(** [build_message_struct] fills an allocated [wl_message] with the name,
    with the signature of the declared arguments, and with one interface
    pointer for each marshaled argument. *)
Lemma build_message_struct_run (self : Message.t) (wl_message_struct : N) (s : state) :
  (wl_message_struct < Npos (next (mem s)))%N ->
  exists name signature types s',
    build_message_struct self wl_message_struct s = Ok ((name, signature, types), s')
    /\ blocks (mem s') !! wl_message_struct = Some (WlMessage name signature types)
    /\ blocks (mem s') !! name
       = Some (Chars (str_encode (Message.name self) ++ [x00]))
    /\ blocks (mem s') !! signature
       = Some (Chars (str_encode
                        (Spec.message_signature
                           (map Spec.of_argument (Message.arguments self))
                           (Message.version self)) ++ [x00]))
    /\ blocks (mem s') !! types
       = Some (Pointers (map interface_pointer (Message._marshaled_arguments self))).
Proof.
  intros Hw. unfold build_message_struct.
  rewrite message_signature_of_arguments.
  set (sig := str_encode (Spec.message_signature
                            (map Spec.of_argument (Message.arguments self))
                            (Message.version self))).
  set (marshaled := Message._marshaled_arguments self).
  set (name := Npos (next (mem s))).
  set (b1 := Chars (str_encode (Message.name self) ++ [x00])).
  set (signature := Npos (next (mem s) + sizeof b1)).
  set (b2 := Chars (sig ++ [x00])).
  set (types := Npos (next (mem s) + sizeof b1 + sizeof b2)).
  set (b3 := Pointers (repeat 0%N (length marshaled))).
  set (s4 := with_mem
               {| next := next (mem s) + sizeof b1 + sizeof b2 + sizeof b3;
                  blocks := <[wl_message_struct := WlMessage name signature types]>
                              (<[types := b3]> (<[signature := b2]> (<[name := b1]>
                                 (blocks (mem s))))) |} s).
  destruct (build_types_run types marshaled 0 (repeat 0%N (length marshaled)) s4)
    as (s' & Hrun & Htypes & Hframe).
  { unfold s4. norm_state. rewrite lookup_insert_ne by (unfold types; lia).
    apply lookup_insert_eq. }
  { rewrite repeat_length. reflexivity. }
  exists name, signature, types, s'. split; [|split; [|split; [|split]]].
  - eapply bind_run; [reflexivity|]. cbv beta.
    eapply bind_run; [reflexivity|]. cbv beta.
    eapply bind_run; [reflexivity|]. cbv beta.
    eapply bind_run; [reflexivity|]. cbv beta.
    eapply bind_run; [reflexivity|]. cbv beta.
    eapply bind_run; [exact Hrun|]. reflexivity.
  - rewrite Hframe by (unfold types; lia). unfold s4. norm_state.
    apply lookup_insert_eq.
  - rewrite Hframe by (unfold types, name; lia). unfold s4. norm_state.
    rewrite !lookup_insert_ne by (unfold types, signature, name; lia).
    apply lookup_insert_eq.
  - rewrite Hframe by (unfold types, signature; lia). unfold s4. norm_state.
    rewrite !lookup_insert_ne by (unfold types, signature; lia).
    apply lookup_insert_eq.
  - rewrite Htypes. reflexivity.
Qed.


(** * Further properties of the code *)

(** ** Decoding *)

Lemma get_i_range (c : Z) : - 2 ^ 31 <= get_i c < 2 ^ 31.
Proof.
  unfold get_i, to_signed32.
  pose proof (Z.mod_pos_bound (c mod 2 ^ 32 + 2 ^ 31) (2 ^ 32) ltac:(lia)). lia.
Qed.

Lemma get_u_range (c : Z) : 0 <= get_u c < 2 ^ 32.
Proof. unfold get_u. apply Z.mod_pos_bound. lia. Qed.

Lemma c_to_argument_decoded_as reg self (m : memory) (i : nat) (a : Argument.t)
    (arg_ptr : N * Z) (v : pyvalue) :
  c_to_argument reg self m i a arg_ptr = Ok v -> decoded_as a v = true.
Proof.
  destruct arg_ptr as [address cell]. unfold c_to_argument, decoded_as.
  destruct (Argument.argument_type a).
  - intros [= <-]. pose proof (get_i_range cell).
    apply andb_true_iff. split; [apply Z.leb_le | apply Z.ltb_lt]; lia.
  - intros [= <-]. pose proof (get_u_range cell).
    apply andb_true_iff. split; [apply Z.leb_le | apply Z.ltb_lt]; lia.
  - intros [= <-]. reflexivity.
  - destruct (address =? 0)%N.
    + destruct (Argument.nullable a); [intros [= <-]; reflexivity | discriminate].
    + destruct (ffi_string m (get_ptr cell)); [|discriminate].
      intros [= <-]. reflexivity.
  - destruct (get_ptr cell =? 0)%N.
    + destruct (Argument.nullable a); [intros [= <-]; reflexivity | discriminate].
    + destruct (types_index self i) as [[iface|]|]; try discriminate.
      cbn [mbind result_bind]. destruct (reg iface) as [registry|]; [|discriminate].
      destruct (Registry.resolve (get_ptr cell) registry); [|discriminate].
      intros [= <-]. reflexivity.
  - discriminate.
  - destruct (blocks m !! get_ptr cell) as [[|array| | | |]|]; try discriminate.
    destruct (ffi_buffer m (data array) (size array)); [|discriminate].
    intros [= <-]. reflexivity.
  - intros [= <-]. pose proof (get_i_range cell).
    apply andb_true_iff. split; [apply Z.leb_le | apply Z.ltb_lt]; lia.
Qed.

Lemma c_to_arguments_from_decoded_as reg self (m : memory) (args_ptr : N)
    (arguments : list Argument.t) :
  forall (i : nat) (args : list pyvalue),
    c_to_arguments_from reg self m args_ptr i arguments = Ok args ->
    Forall2 (fun a v => decoded_as a v = true) arguments args.
Proof.
  induction arguments as [|a rest IH]; intros i args H.
  - injection H as <-. constructor.
  - cbn [c_to_arguments_from] in H.
    destruct (args_index m args_ptr i) as [arg_ptr|]; [|discriminate H].
    cbn [mbind result_bind] in H.
    destruct (c_to_argument reg self m i a arg_ptr) as [v|] eqn:Hv; [|discriminate H].
    cbn [mbind result_bind] in H.
    destruct (c_to_arguments_from reg self m args_ptr (S i) rest) as [vs|] eqn:Hvs;
      [|discriminate H].
    injection H as <-. constructor.
    + eapply c_to_argument_decoded_as. exact Hv.
    + eapply IH. exact Hvs.
Qed.

(** X1. A successful [c_to_arguments] returns one value for each declared
    argument, in order, of the Python type of its argument type: an int
    within the range of the C member for Int, Uint and FileDescriptor, a
    float for Fixed, a str for String, bytes for Array, a proxy for Object,
    and [None] only where the argument is nullable. *)
Theorem X1_decoded_values_match_declared_arguments reg (self : Message.t)
    (m : memory) (args_ptr : N) (args : list pyvalue) :
  c_to_arguments reg self m args_ptr = Ok args ->
  length args = length (Message.arguments self)
  /\ Forall2 (fun a v => decoded_as a v = true) (Message.arguments self) args.
Proof.
  intros H. apply c_to_arguments_from_decoded_as in H.
  split; [symmetry; eapply Forall2_length; exact H | exact H].
Qed.

Lemma X1_witness :
  length [PyInt 8192] = length (Message.arguments (single (Argument.make ArgumentType.Uint)))
  /\ Forall2 (fun a v => decoded_as a v = true)
       (Message.arguments (single (Argument.make ArgumentType.Uint))) [PyInt 8192].
Proof.
  apply (X1_decoded_values_match_declared_arguments surface_registry
           (single (Argument.make ArgumentType.Uint)) event_memory 4096).
  reflexivity.
Defined.

(** ** Encoding: how many arguments are taken *)

Lemma arguments_to_c_from_surplus (p : N) (marshaled : list Argument.t) :
  forall (i : nat) (arg_iter : list pyvalue) (refs : list N) (s : state)
         (r : list N * state) (extra : list pyvalue),
    arguments_to_c_from p i marshaled arg_iter refs s = Ok r ->
    arguments_to_c_from p i marshaled (arg_iter ++ extra) refs s = Ok r.
Proof.
  induction marshaled as [|argument rest IH]; intros i arg_iter refs s [r s'] extra H.
  - exact H.
  - cbn [arguments_to_c_from] in *. destruct (decide _).
    + apply bind_Ok in H. destruct H as (u & s1 & Hw & H).
      eapply bind_run; [exact Hw|]. apply IH. exact H.
    + destruct arg_iter as [|arg arg_iter']; [discriminate H|].
      cbn [app]. apply bind_Ok in H. destruct H as (refs' & s1 & Ha & H).
      eapply bind_run; [exact Ha|]. apply IH. exact H.
Qed.

(** X2. When [arguments_to_c] succeeds on a list of arguments it gives the
    same array and the same state on that list followed by any further
    values: arguments beyond those the marshaled arguments take are never
    read. *)
Theorem X2_surplus_arguments_are_ignored (self : Message.t)
    (args extra : list pyvalue) (s : state) (r : N * state) :
  arguments_to_c self args s = Ok r ->
  arguments_to_c self (args ++ extra) s = Ok r.
Proof.
  destruct r as [p s']. unfold arguments_to_c. intros H.
  apply bind_Ok in H. destruct H as (args_ptr & s0 & Hnew & H).
  apply bind_Ok in H. destruct H as (refs & s1 & Hloop & H).
  eapply bind_run; [exact Hnew|]. cbv beta.
  eapply bind_run; [apply arguments_to_c_from_surplus; exact Hloop|]. exact H.
Qed.

Lemma X2_witness :
  arguments_to_c (single (Argument.make ArgumentType.Int)) ([PyInt 3] ++ [PyNone; PyStr "x"])
    initial_state
  = Ok (4096%N,
        with_mem {| next := 4096 + sizeof (ArgumentCells [0]);
                    blocks := <[4096%N := ArgumentCells [3]]>
                                (<[4096%N := ArgumentCells [0]]> ∅) |} initial_state).
Proof.
  apply X2_surplus_arguments_are_ignored. reflexivity.
Defined.

Lemma arguments_to_c_from_takes (p : N) (marshaled : list Argument.t) :
  forall (i : nat) (arg_iter : list pyvalue) (refs : list N) (s : state)
         (r : list N * state),
    arguments_to_c_from p i marshaled arg_iter refs s = Ok r ->
    (length (filter (fun a => takes_argument a = true) marshaled) <= length arg_iter)%nat.
Proof.
  induction marshaled as [|argument rest IH]; intros i arg_iter refs s [r s'] H.
  - cbn. lia.
  - cbn [arguments_to_c_from] in H.
    assert (Ht : takes_argument argument
                 = if decide (Argument.argument_type argument = ArgumentType.NewId)
                   then false else true) by reflexivity.
    destruct (decide (Argument.argument_type argument = ArgumentType.NewId)).
    + apply bind_Ok in H. destruct H as (u & s1 & Hw & H).
      rewrite filter_cons_False by (rewrite Ht; discriminate). eapply IH. exact H.
    + destruct arg_iter as [|arg arg_iter']; [discriminate H|].
      apply bind_Ok in H. destruct H as (refs' & s1 & Ha & H).
      rewrite filter_cons_True by exact Ht.
      cbn [length]. apply IH in H. lia.
Qed.

(** X3. [arguments_to_c] succeeds only if the caller supplied at least one
    value for every marshaled argument that is not a new id: the declared
    arguments other than new ids, plus a string and a uint for each unbound
    new id. *)
Theorem X3_encoding_needs_a_value_per_marshaled_argument (self : Message.t)
    (args : list pyvalue) (s : state) (r : N * state) :
  arguments_to_c self args s = Ok r ->
  (length (filter (fun a => takes_argument a = true) (Message._marshaled_arguments self))
   <= length args)%nat.
Proof.
  destruct r as [p s']. intros H. apply arguments_to_c_Ok in H.
  destruct H as (s0 & refs & s1 & _ & Hloop & _).
  eapply arguments_to_c_from_takes. exact Hloop.
Qed.

Lemma X3_witness :
  (length (filter (fun a => takes_argument a = true)
             (Message._marshaled_arguments bind_message)) <= 3)%nat.
Proof.
  destruct (arguments_to_c bind_message [PyInt 7; PyStr "wl_shm"; PyInt 1] initial_state)
    as [r|e] eqn:E; [|vm_compute in E; discriminate E].
  exact (X3_encoding_needs_a_value_per_marshaled_argument bind_message
           [PyInt 7; PyStr "wl_shm"; PyInt 1] initial_state r E).
Defined.

(** ** Encoding: what it leaves alone *)

Lemma unchanged_below_refl (bound key : N) (s : state) : unchanged_below bound key s s.
Proof. unfold unchanged_below. repeat split; auto. lia. Qed.

Lemma write_cell_frame bound key s0 a i f s u s' :
  unchanged_below bound key s0 s -> (bound <= a)%N ->
  write_cell a i f s = Ok (u, s') -> unchanged_below bound key s0 s'.
Proof.
  intros (Hb & Hn & Hw & Hd & Hl & Ho) Ha. unfold write_cell.
  destruct (blocks (mem s) !! a) as [[| | | |cs|]|]; try discriminate.
  destruct (cs !! i); [|discriminate].
  unfold store. intros [= _ <-]. unfold unchanged_below. norm_state.
  repeat split; try assumption.
  intros q Hq. rewrite lookup_insert_ne by lia. apply Hb. exact Hq.
Qed.

Lemma ffi_new_frame bound key s0 b s p s' :
  unchanged_below bound key s0 s -> (bound <= Npos (next (mem s0)))%N ->
  ffi_new b s = Ok (p, s') -> unchanged_below bound key s0 s' /\ (bound <= p)%N.
Proof.
  intros (Hb & Hn & Hw & Hd & Hl & Ho) H0. unfold ffi_new. intros [= <- <-].
  split; [|lia]. unfold unchanged_below. norm_state.
  repeat split; try assumption; [|lia].
  intros q Hq. rewrite lookup_insert_ne by lia. apply Hb. exact Hq.
Qed.

Lemma store_frame bound key s0 p b s u s' :
  unchanged_below bound key s0 s -> (bound <= p)%N ->
  store p b s = Ok (u, s') -> unchanged_below bound key s0 s'.
Proof.
  intros (Hb & Hn & Hw & Hd & Hl & Ho) Hp. unfold store. intros [= _ <-].
  unfold unchanged_below. norm_state. repeat split; try assumption.
  intros q Hq. rewrite lookup_insert_ne by lia. apply Hb. exact Hq.
Qed.

Ltac frame_step :=
  match goal with
  | Hu : unchanged_below ?b ?k ?s0 ?s, Ha : (?b <= ?a)%N,
    H : write_cell ?a _ _ ?s = Ok _ |- _ =>
      apply (write_cell_frame _ _ _ _ _ _ _ _ _ Hu Ha) in H; clear Hu
  | Hu : unchanged_below ?b ?k ?s0 ?s, H0 : (?b <= Npos (next (mem ?s0)))%N,
    H : ffi_new _ ?s = Ok _ |- _ =>
      apply (ffi_new_frame _ _ _ _ _ _ _ Hu H0) in H; clear Hu; destruct H as [? ?]
  | Hu : unchanged_below ?b ?k ?s0 ?s, Hp : (?b <= ?p)%N,
    H : store ?p _ ?s = Ok _ |- _ =>
      apply (store_frame _ _ _ _ _ _ _ _ Hu Hp) in H; clear Hu
  end.

Lemma argument_to_c_frame bound key s0 a i argument arg refs s r s' :
  unchanged_below bound key s0 s -> (bound <= a)%N ->
  (bound <= Npos (next (mem s0)))%N ->
  argument_to_c a i argument arg refs s = Ok (r, s') -> unchanged_below bound key s0 s'.
Proof.
  intros Hu Ha H0. unfold argument_to_c.
  destruct (Argument.argument_type argument); intros H;
    try (destruct arg; try discriminate H);
    try (destruct (negb (Argument.nullable argument)); [discriminate H|]);
    try (destruct (Proxy._ptr p); [|discriminate H]);
    invM; repeat frame_step; assumption.
Qed.

Lemma arguments_to_c_from_frame bound key s0 a (marshaled : list Argument.t) :
  (bound <= a)%N -> (bound <= Npos (next (mem s0)))%N ->
  forall i arg_iter refs s r s',
    unchanged_below bound key s0 s ->
    arguments_to_c_from a i marshaled arg_iter refs s = Ok (r, s') ->
    unchanged_below bound key s0 s'.
Proof.
  intros Ha H0. induction marshaled as [|argument rest IH];
    intros i arg_iter refs s r s' Hu H.
  - cbn in H. invM. exact Hu.
  - cbn [arguments_to_c_from] in H. destruct (decide _).
    + apply bind_Ok in H. destruct H as (u & s1 & Hw & H).
      eapply IH; [|exact H]. exact (write_cell_frame _ _ _ _ _ _ _ _ _ Hu Ha Hw).
    + destruct arg_iter as [|arg arg_iter']; [discriminate H|].
      apply bind_Ok in H. destruct H as (refs' & s1 & Hx & H).
      eapply IH; [|exact H].
      exact (argument_to_c_frame _ _ _ _ _ _ _ _ _ _ _ Hu Ha H0 Hx).
Qed.

Lemma arguments_to_c_frame (self : Message.t) (args : list pyvalue)
    (s : state) (p : N) (s' : state) :
  arguments_to_c self args s = Ok (p, s') ->
  p = Npos (next (mem s)) /\ unchanged_below p p s s'.
Proof.
  unfold arguments_to_c. intros H.
  apply bind_Ok in H. destruct H as (args_ptr & s0 & Hnew & H).
  apply bind_Ok in H. destruct H as (refs & s1 & Hloop & H).
  apply bind_Ok in H. destruct H as (u & s2 & Hweak & H).
  apply mret_Ok in H. destruct H as [-> ->].
  assert (Hp : args_ptr = Npos (next (mem s))) by (unfold ffi_new in Hnew; congruence).
  split; [exact Hp|].
  assert (Hu0 : unchanged_below args_ptr args_ptr s s0).
  { destruct (ffi_new_frame args_ptr args_ptr s _ s args_ptr s0
                (unchanged_below_refl _ _ _) ltac:(lia) Hnew) as [Hu _]. exact Hu. }
  assert (Hu1 : unchanged_below args_ptr args_ptr s s1).
  { eapply arguments_to_c_from_frame; [| |exact Hu0|exact Hloop]; lia. }
  destruct (0 <? length refs)%nat.
  - unfold set_weakkeydict in Hweak. injection Hweak as _ <-.
    destruct Hu1 as (Hb & Hn & Hw & Hd & Hl & Ho).
    unfold unchanged_below. norm_state. repeat split; try assumption.
    intros q Hq. rewrite lookup_insert_ne by congruence. apply Hw. exact Hq.
  - apply mret_Ok in Hweak. destruct Hweak as [_ ->]. exact Hu1.
Qed.

(** X4. A successful [arguments_to_c] returns a freshly allocated array and
    leaves every block that was allocated before the call as it was; it
    changes [weakkeydict] at most at the new array, and it touches neither
    [dispatcher_to_object] nor libwayland nor the identities of objects. *)
Theorem X4_encoding_only_allocates (self : Message.t) (args : list pyvalue)
    (s : state) (p : N) (s' : state) :
  arguments_to_c self args s = Ok (p, s') ->
  p = Npos (next (mem s)) /\ unchanged_below p p s s'.
Proof. apply arguments_to_c_frame. Qed.

Lemma X4_witness :
  exists p s',
    arguments_to_c bind_message [PyInt 7; PyStr "wl_shm"; PyInt 1]
      (with_mem event_memory initial_state) = Ok (p, s')
    /\ p = 8200%N
    /\ blocks (mem s') !! 4096%N = Some (ArgumentCells [8192])
    /\ lib_calls s' = [].
Proof.
  destruct (arguments_to_c bind_message [PyInt 7; PyStr "wl_shm"; PyInt 1]
              (with_mem event_memory initial_state)) as [[p s']|e] eqn:E;
    [|vm_compute in E; discriminate E].
  destruct (X4_encoding_only_allocates _ _ _ _ _ E) as (Hp & Hb & _ & _ & _ & Hl & _).
  exists p, s'. split; [reflexivity|]. split; [exact Hp|].
  split; [|exact Hl]. rewrite Hb by (rewrite Hp; reflexivity). reflexivity.
Defined.


(** ** Encoding and decoding lists of numbers and strings *)

Lemma plain_value_takes (a : Argument.t) (v : pyvalue) :
  plain_value a v = true -> Message.expand a = [a] /\ takes_argument a = true.
Proof.
  unfold plain_value, Message.expand, takes_argument.
  destruct (Argument.argument_type a), (Argument.interface a); try discriminate;
    intros _; split; reflexivity.
Qed.

Lemma marshaled_plain (arguments : list Argument.t) (args : list pyvalue) :
  Forall2 (fun a v => plain_value a v = true) arguments args ->
  Message.marshaled arguments = arguments.
Proof.
  induction 1 as [|a v arguments args Hp _ IH]; [reflexivity|].
  cbn [Message.marshaled]. rewrite IH.
  destruct (plain_value_takes a v Hp) as [-> _]. reflexivity.
Qed.

Lemma cell_stored_later (p : N) (s s' : state) (a : Argument.t) (v : pyvalue) (c : Z) :
  cell_stored p s a v c ->
  (forall q, q <> p -> (q < Npos (next (mem s)))%N ->
             blocks (mem s') !! q = blocks (mem s) !! q) ->
  (next (mem s) <= next (mem s'))%positive ->
  cell_stored p s' a v c.
Proof.
  intros [Hh Hs] Hframe Hnext. unfold cell_stored, cell_holds in *.
  destruct (Argument.argument_type a) eqn:Ht, v; try contradiction;
    try (split; [exact Hh | intros [=]]).
  destruct (Hs eq_refl) as [Hne Hlt]. destruct Hh as (Hnz & bytes & Hb & Hu).
  split.
  - split; [exact Hnz|]. exists bytes. split; [|exact Hu].
    rewrite Hframe by assumption. exact Hb.
  - intros _. split; [exact Hne | lia].
Qed.

Lemma forallb_no_nul (b : list byte) :
  forallb (fun c => negb (Byte.eqb c x00)) b = true -> Forall (fun c => c <> x00) b.
Proof.
  intros H. apply Forall_forall. intros c Hc Heq. subst c.
  rewrite forallb_forall in H. apply list_elem_of_In in Hc.
  specialize (H _ Hc). discriminate H.
Qed.

Lemma argument_to_c_plain (p : N) (i : nat) (a : Argument.t) (v : pyvalue)
    (refs : list N) (s : state) (cells : list Z) :
  plain_value a v = true ->
  blocks (mem s) !! p = Some (ArgumentCells cells) ->
  cells !! i = Some 0 ->
  (p < Npos (next (mem s)))%N ->
  exists c refs' s',
    argument_to_c p i a v refs s = Ok (refs', s')
    /\ blocks (mem s') !! p = Some (ArgumentCells (<[i := c]> cells))
    /\ cell_stored p s' a v c
    /\ (forall q, q <> p -> (q < Npos (next (mem s)))%N ->
                  blocks (mem s') !! q = blocks (mem s) !! q)
    /\ (next (mem s) <= next (mem s'))%positive
    /\ (forall r, r ∈ refs -> r ∈ refs')
    /\ (Argument.argument_type a = ArgumentType.String -> get_ptr c ∈ refs')
    /\ weakkeydict s' = weakkeydict s.
Proof.
  intros Hp Hb Hi Hlt. unfold plain_value in Hp. unfold argument_to_c, cell_stored, cell_holds.
  destruct (Argument.argument_type a) eqn:Ht, v; try discriminate Hp.
  - apply andb_true_iff in Hp. destruct Hp as [H1%Z.leb_le H2%Z.ltb_lt].
    exists (set_low32 n 0), refs. eexists. split; [|split; [|split; [|split; [|split; [|split; [|split]]]]]].
    + rewrite to_int32_Ok by lia. eapply bind_run; [reflexivity|].
      eapply bind_run; [apply (write_cell_run _ _ _ _ _ _ Hb Hi)|]. reflexivity.
    + norm_state. apply lookup_insert_eq.
    + split; [apply get_i_set_low32; lia | intros [=]].
    + intros q Hq _. norm_state. apply lookup_insert_ne. congruence.
    + norm_state. lia.
    + intros r Hr. exact Hr.
    + intros [=].
    + reflexivity.
  - apply andb_true_iff in Hp. destruct Hp as [H1%Z.leb_le H2%Z.ltb_lt].
    exists (set_low32 n 0), refs. eexists. split; [|split; [|split; [|split; [|split; [|split; [|split]]]]]].
    + rewrite to_uint32_Ok by lia. eapply bind_run; [reflexivity|].
      eapply bind_run; [apply (write_cell_run _ _ _ _ _ _ Hb Hi)|]. reflexivity.
    + norm_state. apply lookup_insert_eq.
    + split; [apply get_u_set_low32; lia | intros [=]].
    + intros q Hq _. norm_state. apply lookup_insert_ne. congruence.
    + norm_state. lia.
    + intros r Hr. exact Hr.
    + intros [=].
    + reflexivity.
  - apply forallb_no_nul in Hp.
    exists (set_ptr (Npos (next (mem s))) 0), (refs ++ [Npos (next (mem s))])%list.
    eexists. split; [|split; [|split; [|split; [|split; [|split; [|split]]]]]].
    + eapply bind_run; [reflexivity|]. cbv beta.
      eapply bind_run; [eapply write_cell_run; [|exact Hi]|]; [|reflexivity].
      norm_state. rewrite lookup_insert_ne by lia. exact Hb.
    + norm_state. apply lookup_insert_eq.
    + unfold set_ptr, get_ptr. cbn [Z.of_N Z.to_N]. norm_state. split.
      * split; [discriminate|]. eexists. split.
        -- rewrite lookup_insert_ne by lia. apply lookup_insert_eq.
        -- apply until_nul_terminated. exact Hp.
      * intros _. split; lia.
    + intros q Hq Hql. norm_state. rewrite lookup_insert_ne by congruence.
      apply lookup_insert_ne. lia.
    + norm_state. lia.
    + intros r Hr. apply elem_of_app. left. exact Hr.
    + intros _. unfold set_ptr, get_ptr. cbn [Z.of_N Z.to_N].
      apply elem_of_app. right. apply list_elem_of_singleton. reflexivity.
    + reflexivity.
  - apply andb_true_iff in Hp. destruct Hp as [H1%Z.leb_le H2%Z.ltb_lt].
    exists (set_low32 n 0), refs. eexists. split; [|split; [|split; [|split; [|split; [|split; [|split]]]]]].
    + rewrite to_int32_Ok by lia. eapply bind_run; [reflexivity|].
      eapply bind_run; [apply (write_cell_run _ _ _ _ _ _ Hb Hi)|]. reflexivity.
    + norm_state. apply lookup_insert_eq.
    + split; [apply get_i_set_low32; lia | intros [=]].
    + intros q Hq _. norm_state. apply lookup_insert_ne. congruence.
    + norm_state. lia.
    + intros r Hr. exact Hr.
    + intros [=].
    + reflexivity.
Qed.

Lemma arguments_to_c_from_plain (p : N) (marshaled : list Argument.t) (vals : list pyvalue) :
  Forall2 (fun a v => plain_value a v = true) marshaled vals ->
  forall (i : nat) (done tail : list Z) (refs : list N) (s : state),
    blocks (mem s) !! p
    = Some (ArgumentCells (done ++ repeat 0 (length marshaled) ++ tail)%list) ->
    length done = i ->
    (p < Npos (next (mem s)))%N ->
    exists cells refs' s',
      arguments_to_c_from p i marshaled vals refs s = Ok (refs', s')
      /\ blocks (mem s') !! p = Some (ArgumentCells (done ++ cells ++ tail)%list)
      /\ Forall3 (cell_stored p s') marshaled vals cells
      /\ (forall q, q <> p -> (q < Npos (next (mem s)))%N ->
                    blocks (mem s') !! q = blocks (mem s) !! q)
      /\ (next (mem s) <= next (mem s'))%positive
      /\ (forall r, r ∈ refs -> r ∈ refs')
      /\ Forall2 (fun a c => Argument.argument_type a = ArgumentType.String ->
                              get_ptr c ∈ refs') marshaled cells
      /\ weakkeydict s' = weakkeydict s.
Proof.
  induction 1 as [|a v marshaled vals Hp _ IH]; intros i done tail refs s Hb Hi Hlt.
  - exists [], refs, s. cbn [length repeat app] in Hb.
    split; [reflexivity|]. split; [exact Hb|]. split; [constructor|].
    split; [reflexivity|]. split; [lia|]. split; [auto|]. split; [constructor | reflexivity].
  - cbn [length repeat app] in Hb.
    assert (Hcell : ((done ++ 0 :: repeat 0 (length marshaled) ++ tail)%list) !! i = Some 0).
    { rewrite lookup_app_r by lia. replace (i - length done)%nat with 0%nat by lia.
      reflexivity. }
    destruct (argument_to_c_plain p i a v refs s _ Hp Hb Hcell Hlt)
      as (c & refs1 & s1 & Hrun & Hb1 & Hst & Hframe1 & Hnext1 & Hsub1 & Hin1 & Hw1).
    assert (Hb1' : blocks (mem s1) !! p
                   = Some (ArgumentCells
                             ((done ++ [c]) ++ repeat 0 (length marshaled) ++ tail)%list)).
    { rewrite Hb1. do 2 f_equal. rewrite <- app_assoc. cbn [app].
      rewrite insert_app_r_alt by lia. replace (i - length done)%nat with 0%nat by lia.
      reflexivity. }
    destruct (IH (S i) (done ++ [c])%list tail refs1 s1 Hb1') as
      (cells & refs' & s' & Hloop & Hb' & Hall & Hframe & Hnext & Hsub & Hin & Hw).
    { rewrite length_app. cbn. lia. }
    { lia. }
    exists (c :: cells), refs', s'.
    split; [|split; [|split; [|split; [|split; [|split; [|split]]]]]].
    + cbn [arguments_to_c_from]. destruct (plain_value_takes a v Hp) as [_ Ht].
      unfold takes_argument in Ht. destruct (decide _); [discriminate Ht|].
      eapply bind_run; [exact Hrun | exact Hloop].
    + rewrite Hb'. rewrite <- app_assoc. reflexivity.
    + constructor; [|exact Hall].
      eapply cell_stored_later; [exact Hst | | exact Hnext].
      intros q Hq Hql. apply Hframe; [exact Hq | lia].
    + intros q Hq Hql. rewrite Hframe by (try assumption; lia).
      apply Hframe1; assumption.
    + lia.
    + intros r Hr. apply Hsub, Hsub1, Hr.
    + constructor; [|exact Hin]. intros Ht. apply Hsub, Hin1, Ht.
    + rewrite Hw. exact Hw1.
Qed.





(** ** The buffers of the strings are kept alive *)

(** X20. Under the conditions of X5, every string argument's cell points
    to a buffer that is listed in [weakkeydict] under the array returned:
    the buffers made by [ffi.new] live as long as the array does. *)
Theorem X20_string_buffers_are_kept_alive (self : Message.t)
    (args : list pyvalue) (s : state) :
  Forall2 (fun a v => plain_value a v = true) (Message.arguments self) args ->
  exists p s' cells,
    arguments_to_c self args s = Ok (p, s')
    /\ blocks (mem s') !! p = Some (ArgumentCells cells)
    /\ Forall2 (fun a c =>
                  Argument.argument_type a = ArgumentType.String ->
                  exists refs bytes,
                    weakkeydict s' !! p = Some refs
                    /\ get_ptr c ∈ refs
                    /\ blocks (mem s') !! get_ptr c = Some (Chars bytes))
               (Message.arguments self) cells.
Proof.
  intros Hall. unfold arguments_to_c, Message._marshaled_arguments.
  rewrite (marshaled_plain _ _ Hall).
  set (p := Npos (next (mem s))).
  set (s0 := with_mem
               {| next := next (mem s)
                          + sizeof (ArgumentCells
                                      (repeat 0 (length (Message.arguments self))));
                  blocks := <[p := ArgumentCells
                                      (repeat 0 (length (Message.arguments self)))]>
                              (blocks (mem s)) |} s).
  destruct (arguments_to_c_from_plain p _ _ Hall 0 [] [] [] s0)
    as (cells & refs & s1 & Hloop & Hb & Hst & _ & _ & _ & Hin & _).
  { unfold s0. norm_state. rewrite app_nil_r. apply lookup_insert_eq. }
  { reflexivity. }
  { unfold s0, p. norm_state. lia. }
  cbn [app] in Hb. rewrite app_nil_r in Hb.
  assert (Hbuf : Forall2 (fun a c =>
                            Argument.argument_type a = ArgumentType.String ->
                            get_ptr c ∈ refs
                            /\ exists bytes, blocks (mem s1) !! get_ptr c = Some (Chars bytes))
                         (Message.arguments self) cells).
  { clear - Hst Hin. revert Hin.
    induction Hst as [|a v c arguments vals cells [Hh _] _ IH]; intros Hin;
      [constructor|].
    inversion Hin as [|? ? ? ? Hc Hrest]; subst.
    constructor; [|apply IH; exact Hrest].
    intros Ht. split; [apply Hc, Ht|].
    unfold cell_holds in Hh. rewrite Ht in Hh.
    destruct v; try contradiction.
    destruct Hh as (_ & bytes & Hbytes & _). exists bytes. exact Hbytes. }
  destruct (0 <? length refs)%nat eqn:Hrefs.
  - exists p. eexists. exists cells. split; [|split].
    + eapply bind_run; [reflexivity|]. cbv beta. fold p. fold s0.
      eapply bind_run; [exact Hloop|]. cbv beta. rewrite Hrefs.
      eapply bind_run; [reflexivity|]. reflexivity.
    + norm_state. exact Hb.
    + eapply Forall2_impl; [exact Hbuf|]. cbv beta.
      intros a c H Ht. destruct (H Ht) as (Hr & bytes & Hbytes).
      exists refs, bytes. norm_state.
      split; [apply lookup_insert_eq|]. split; assumption.
  - exists p, s1, cells. split; [|split].
    + eapply bind_run; [reflexivity|]. cbv beta. fold p. fold s0.
      eapply bind_run; [exact Hloop|]. cbv beta. rewrite Hrefs. reflexivity.
    + exact Hb.
    + eapply Forall2_impl; [exact Hbuf|]. cbv beta.
      intros a c H Ht. destruct (H Ht) as (Hr & _).
      apply Nat.ltb_ge in Hrefs. destruct refs; [|cbn in Hrefs; lia].
      apply elem_of_nil in Hr. contradiction.
Qed.

Lemma X20_witness :
  exists p s' cells,
    arguments_to_c
      (Message.__init__ "set_title"
         [Argument.make ArgumentType.Uint; Argument.make ArgumentType.String] None)
      [PyInt 1; PyStr "term"] initial_state = Ok (p, s')
    /\ blocks (mem s') !! p = Some (ArgumentCells cells)
    /\ Forall2 (fun a c =>
                  Argument.argument_type a = ArgumentType.String ->
                  exists refs bytes,
                    weakkeydict s' !! p = Some refs
                    /\ get_ptr c ∈ refs
                    /\ blocks (mem s') !! get_ptr c = Some (Chars bytes))
               (Message.arguments
                  (Message.__init__ "set_title"
                     [Argument.make ArgumentType.Uint; Argument.make ArgumentType.String]
                     None))
               cells.
Proof.
  apply X20_string_buffers_are_kept_alive.
  repeat constructor.
Defined.

(** ** Integers out of range *)

Lemma arguments_to_c_from_rejects (p : N) (pre : list Argument.t) (vals : list pyvalue)
    (a : Argument.t) (v : pyvalue) (post : list Argument.t) (rest : list pyvalue)
    (e : exn) :
  Forall2 (fun a v => plain_value a v = true) pre vals ->
  Argument.argument_type a <> ArgumentType.NewId ->
  (forall i refs s, argument_to_c p i a v refs s = Raise e) ->
  forall (i : nat) (done tail : list Z) (refs : list N) (s : state),
    blocks (mem s) !! p
    = Some (ArgumentCells (done ++ repeat 0 (length pre) ++ tail)%list) ->
    length done = i ->
    (p < Npos (next (mem s)))%N ->
    arguments_to_c_from p i (pre ++ a :: post) (vals ++ v :: rest) refs s = Raise e.
Proof.
  intros Hall Hty Hrej.
  induction Hall as [|a0 v0 pre vals Hp Hall IH]; intros i done tail refs s Hb Hi Hlt.
  - cbn [app arguments_to_c_from]. destruct (decide _); [contradiction|].
    apply bind_raise. apply Hrej.
  - cbn [length repeat app] in Hb.
    assert (Hcell : ((done ++ 0 :: repeat 0 (length pre) ++ tail)%list) !! i = Some 0).
    { rewrite lookup_app_r by lia. replace (i - length done)%nat with 0%nat by lia.
      reflexivity. }
    destruct (argument_to_c_plain p i a0 v0 refs s _ Hp Hb Hcell Hlt)
      as (c & refs1 & s1 & Hrun & Hb1 & _ & _ & Hnext1 & _).
    cbn [app arguments_to_c_from]. destruct (plain_value_takes a0 v0 Hp) as [_ Ht].
    unfold takes_argument in Ht. destruct (decide _); [discriminate Ht|].
    eapply bind_run; [exact Hrun|].
    apply (IH (S i) (done ++ [c])%list tail).
    + rewrite Hb1. do 2 f_equal. rewrite <- app_assoc. cbn [app].
      rewrite insert_app_r_alt by lia. replace (i - length done)%nat with 0%nat by lia.
      reflexivity.
    + rewrite length_app. cbn. lia.
    + lia.
Qed.

(** X21. When the values before it are accepted as in X5 and the next
    argument is an Int, Uint or FileDescriptor whose value is an int
    outside the range of its 32-bit member, [arguments_to_c] raises
    OverflowError: the value is not wrapped, whatever follows it. *)
Theorem X21_out_of_range_integer_is_rejected (self : Message.t)
    (pre post : list Argument.t) (a : Argument.t)
    (vals rest : list pyvalue) (n : Z) (s : state) :
  Message.arguments self = (pre ++ a :: post)%list ->
  Forall2 (fun a v => plain_value a v = true) pre vals ->
  Argument.argument_type a = ArgumentType.Int
  \/ Argument.argument_type a = ArgumentType.Uint
  \/ Argument.argument_type a = ArgumentType.FileDescriptor ->
  plain_value a (PyInt n) = false ->
  arguments_to_c self (vals ++ PyInt n :: rest) s = Raise OverflowError.
Proof.
  intros Hargs Hall Hty Hout.
  unfold arguments_to_c, Message._marshaled_arguments.
  rewrite Hargs, marshaled_app, (marshaled_plain _ _ Hall).
  cbn [Message.marshaled].
  assert (Hexp : Message.expand a = [a]).
  { unfold Message.expand.
    destruct Hty as [-> | [-> | ->]]; destruct (Argument.interface a); reflexivity. }
  rewrite Hexp. cbn [app].
  eapply bind_run; [reflexivity|]. cbv beta.
  apply bind_raise.
  apply (arguments_to_c_from_rejects _ pre vals a (PyInt n) _ rest OverflowError Hall)
    with (done := []) (tail := repeat 0 (S (length (Message.marshaled post)))).
  - destruct Hty as [-> | [-> | ->]]; discriminate.
  - intros i refs s1. unfold argument_to_c, plain_value in *.
    destruct Hty as [Ht | [Ht | Ht]]; rewrite Ht in *; unfold to_int32, to_uint32;
      rewrite Hout; reflexivity.
  - norm_state. rewrite lookup_insert_eq. do 2 f_equal.
    rewrite length_app. cbn [length app]. apply repeat_app.
  - reflexivity.
  - norm_state. lia.
Qed.

Lemma X21_witness :
  arguments_to_c
    (Message.__init__ "attach"
       [Argument.make ArgumentType.String; Argument.make ArgumentType.Uint;
        Argument.make ArgumentType.Int] None)
    ([PyStr "a"] ++ PyInt (-1) :: [PyInt 0]) initial_state
  = Raise OverflowError.
Proof.
  apply (X21_out_of_range_integer_is_rejected
           (Message.__init__ "attach"
              [Argument.make ArgumentType.String; Argument.make ArgumentType.Uint;
               Argument.make ArgumentType.Int] None)
           [Argument.make ArgumentType.String] [Argument.make ArgumentType.Int]
           (Argument.make ArgumentType.Uint)).
  - reflexivity.
  - repeat constructor.
  - right. left. reflexivity.
  - reflexivity.
Defined.

(** ** Strings with a NUL byte *)





(** ** [None] and proxies as arguments *)

(** X7. For a String or Object argument the encoder rejects [None] with the
    bare [Exception] when the argument is not nullable, and when it is
    nullable it succeeds and leaves the null pointer in the cell. *)
Theorem X7_none_is_encoded_only_for_nullable ty (nullable : bool) iface (s : state) :
  ty = ArgumentType.String \/ ty = ArgumentType.Object ->
  if nullable then
    exists p s',
      arguments_to_c (single (argument ty true iface)) [PyNone] s = Ok (p, s')
      /\ blocks (mem s') !! p = Some (ArgumentCells [0])
  else
    arguments_to_c (single (argument ty false iface)) [PyNone] s = Raise (Exception_ "").
Proof.
  intros Hty. destruct nullable.
  - apply null_encode_accepted. exact Hty.
  - apply null_encode_rejected. exact Hty.
Qed.

Lemma X7_witness :
  arguments_to_c (single (argument ArgumentType.Object false (Some wl_surface))) [PyNone]
    initial_state = Raise (Exception_ "").
Proof.
  apply (X7_none_is_encoded_only_for_nullable ArgumentType.Object false
           (Some wl_surface) initial_state).
  right. reflexivity.
Defined.

(** X8. A proxy whose pointer [_destroy] has cleared cannot be passed as an
    Object argument: the cast of its [_ptr] fails and [arguments_to_c]
    raises TypeError. *)
Theorem X8_destroyed_proxy_is_not_encoded nullable iface (proxy : Proxy.t) (s : state) :
  truthy_ptr (Proxy._ptr proxy) = true ->
  arguments_to_c (single (argument ArgumentType.Object nullable iface))
    [PyProxy (_destroy proxy)] s = Raise TypeError.
Proof.
  intros H. encode_single. rewrite (destroy_clears_pointer proxy H). run.
Qed.

Lemma X8_witness :
  arguments_to_c (single (argument ArgumentType.Object false (Some wl_surface)))
    [PyProxy (_destroy surface_proxy)] initial_state = Raise TypeError.
Proof.
  apply X8_destroyed_proxy_is_not_encoded. reflexivity.
Defined.

(** X9. Once a message carries the attribute [types] with the interface of
    its object argument, and the registry of that interface's proxy class
    maps the pointer of a live proxy to the proxy, encoding the proxy and
    decoding the cell returns the same proxy. *)
Theorem X9_registered_proxy_round_trips reg (name : string) nullable iface
    (version : option Z) (iface0 : Interface.t) (registry : gmap N Proxy.t)
    (proxy : Proxy.t) (ptr : N) (s : state) :
  Proxy._ptr proxy = Some ptr ->
  ptr <> 0%N ->
  reg iface0 = Some registry ->
  registry !! ptr = Some proxy ->
  let self := {| Message.name := name;
                 Message.arguments := [argument ArgumentType.Object nullable iface];
                 Message.version := version;
                 Message.types := Some [Some iface0] |} in
  exists p s',
    arguments_to_c self [PyProxy proxy] s = Ok (p, s')
    /\ c_to_arguments reg self (mem s') p = Ok [PyProxy proxy].
Proof.
  intros Hptr Hnz Hreg Hlook self. exists (Npos (next (mem s))). eexists. split.
  - unfold arguments_to_c, self, Message._marshaled_arguments.
    cbn [Message.arguments Message.marshaled].
    replace (Message.expand (argument ArgumentType.Object nullable iface))
      with [argument ArgumentType.Object nullable iface]
      by (unfold Message.expand, argument; cbn; destruct iface; reflexivity).
    cbn [app length repeat]. unfold argument. simpl arguments_to_c_from.
    unfold argument_to_c. cbn [Argument.argument_type]. rewrite Hptr. run.
  - unfold c_to_arguments, self. cbn [Message.arguments c_to_arguments_from].
    unfold args_index. cbn [N.eqb]. norm_state. rewrite lookup_insert_eq.
    cbn [lookup list_lookup list_insert insert mbind result_bind].
    rewrite (object_decode_with_types reg _ _ 0 nullable iface [Some iface0] iface0 registry)
      by (try reflexivity; exact Hreg).
    unfold set_ptr, get_ptr. rewrite N2Z.id.
    destruct (ptr =? 0)%N eqn:E; [apply N.eqb_eq in E; contradiction|].
    unfold Registry.resolve. rewrite Hlook. reflexivity.
Qed.

Lemma X9_witness :
  exists p s',
    arguments_to_c
      {| Message.name := "enter";
         Message.arguments := [argument ArgumentType.Object false (Some wl_surface)];
         Message.version := None; Message.types := Some [Some wl_surface] |}
      [PyProxy surface_proxy] initial_state = Ok (p, s')
    /\ c_to_arguments surface_registry
         {| Message.name := "enter";
            Message.arguments := [argument ArgumentType.Object false (Some wl_surface)];
            Message.version := None; Message.types := Some [Some wl_surface] |}
         (mem s') p = Ok [PyProxy surface_proxy].
Proof.
  apply (X9_registered_proxy_round_trips surface_registry "enter" false (Some wl_surface)
           None wl_surface {[ 8192%N := surface_proxy ]} surface_proxy 8192 initial_state);
    [reflexivity | discriminate | reflexivity | reflexivity].
Defined.

(** ** The message struct *)

(** X10. Given the address of an allocated [wl_message],
    [build_message_struct] succeeds and leaves in it pointers to the
    NUL-terminated name, to the NUL-terminated signature of the declared
    arguments, and to a [types] array with exactly one entry per marshaled
    argument: the interface pointer of the argument, or NULL when it has no
    interface (so three entries, the first two NULL, for an unbound new
    id). *)
Theorem X10_message_struct_has_a_type_per_marshaled_argument
    (self : Message.t) (wl_message_struct : N) (s : state) :
  (wl_message_struct < Npos (next (mem s)))%N ->
  exists name signature types s' text,
    build_message_struct self wl_message_struct s = Ok ((name, signature, types), s')
    /\ blocks (mem s') !! wl_message_struct = Some (WlMessage name signature types)
    /\ blocks (mem s') !! name = Some (Chars (str_encode (Message.name self) ++ [x00]))
    /\ Message.signature self = Ok text
    /\ blocks (mem s') !! signature = Some (Chars (str_encode text ++ [x00]))
    /\ blocks (mem s') !! types
       = Some (Pointers (map interface_pointer (Message._marshaled_arguments self)))
    /\ length (map interface_pointer (Message._marshaled_arguments self))
       = (length (Message.arguments self)
          + 2 * length (filter (fun a => Spec.unbound a = true) (Message.arguments self)))%nat.
Proof.
  intros Hw.
  destruct (build_message_struct_run self wl_message_struct s Hw)
    as (name & signature & types & s' & Hrun & Hm & Hn & Hs & Ht).
  exists name, signature, types, s'. eexists.
  split; [exact Hrun|]. split; [exact Hm|]. split; [exact Hn|].
  split; [apply message_signature_of_arguments|]. split; [exact Hs|].
  split; [exact Ht|]. rewrite length_map. apply marshaled_length.
Qed.

Lemma X10_witness :
  exists name signature types s' text,
    build_message_struct bind_message 4096 (with_mem event_memory initial_state)
    = Ok ((name, signature, types), s')
    /\ blocks (mem s') !! 4096%N = Some (WlMessage name signature types)
    /\ blocks (mem s') !! name = Some (Chars (str_encode "bind" ++ [x00]))
    /\ Message.signature bind_message = Ok text
    /\ blocks (mem s') !! signature = Some (Chars (str_encode text ++ [x00]))
    /\ blocks (mem s') !! types = Some (Pointers [0; 0; 0; 0]%N)
    /\ length [0; 0; 0; 0]%N = 4%nat.
Proof.
  apply (X10_message_struct_has_a_type_per_marshaled_argument bind_message 4096
           (with_mem event_memory initial_state)).
  reflexivity.
Defined.

(** ** Marshalling through a proxy *)

(** X11. For a proxy that still has its pointer, a valid opcode and
    arguments that the request's message encodes, [_marshal] hands exactly
    one request to libwayland, with the proxy's pointer, the opcode and the
    array that [arguments_to_c] built, and changes nothing else beyond what
    the encoding allocated. *)
Theorem X11_marshal_hands_over_the_encoded_array (requests : list Message.t)
    (self : Proxy.t) (opcode : nat) (args : list pyvalue) (s : state)
    (proxy : N) (message : Message.t) (args_ptr : N) (s1 : state) :
  Proxy._ptr self = Some proxy ->
  requests !! opcode = Some message ->
  arguments_to_c message args s = Ok (args_ptr, s1) ->
  exists s',
    _marshal requests self opcode args s = Ok (tt, s')
    /\ lib_calls s' = (lib_calls s ++ [wl_proxy_marshal_array proxy opcode args_ptr])%list
    /\ mem s' = mem s1
    /\ weakkeydict s' = weakkeydict s1
    /\ dispatcher_to_object s' = dispatcher_to_object s.
Proof.
  intros Hptr Hreq Henc.
  destruct (arguments_to_c_frame _ _ _ _ _ Henc) as (_ & _ & _ & _ & Hd & Hl & _).
  eexists. split.
  - unfold _marshal, ensure_valid. rewrite Hptr. unfold _marshal_body, request.
    rewrite Hreq. eapply bind_run; [reflexivity|]. cbv beta.
    eapply bind_run; [exact Henc|]. cbv beta. rewrite Hptr.
    eapply bind_run; [reflexivity|]. reflexivity.
  - norm_state. rewrite Hl, Hd. repeat split; reflexivity.
Qed.

Lemma X11_witness :
  exists s',
    _marshal [single (Argument.make ArgumentType.Int)] surface_proxy 0 [PyInt 3]
      initial_state = Ok (tt, s')
    /\ lib_calls s' = ([] ++ [wl_proxy_marshal_array 8192 0 4096])%list
    /\ mem s' = {| next := 4096 + sizeof (ArgumentCells [0]);
                   blocks := <[4096%N := ArgumentCells [3]]>
                               (<[4096%N := ArgumentCells [0]]> ∅) |}
    /\ weakkeydict s' = ∅
    /\ dispatcher_to_object s' = ∅.
Proof.
  apply (X11_marshal_hands_over_the_encoded_array
           [single (Argument.make ArgumentType.Int)] surface_proxy 0 [PyInt 3]
           initial_state 8192 (single (Argument.make ArgumentType.Int)) 4096
           (with_mem {| next := 4096 + sizeof (ArgumentCells [0]);
                        blocks := <[4096%N := ArgumentCells [3]]>
                                    (<[4096%N := ArgumentCells [0]]> ∅) |}
              initial_state));
    reflexivity.
Defined.

(** X12. For a proxy that still has its pointer, a valid opcode and
    arguments that the request's message encodes, [_marshal_constructor]
    always returns a new proxy: its pointer is whatever libwayland returned
    (a NULL result is not detected), its display is the caller's display, or
    the caller itself when the caller has none, and the constructor request
    was handed to libwayland with the pointer of the interface. *)
Theorem X12_marshal_constructor_wraps_the_returned_pointer
    (requests : list Message.t) (proxy_class_dispatcher : Interface.t -> option N)
    (constructor_result : N -> nat -> N -> N -> N)
    (self : Proxy.t) (opcode : nat) (interface : Interface.t) (args : list pyvalue)
    (s : state) (proxy : N) (message : Message.t) (args_ptr : N) (s1 : state) :
  Proxy._ptr self = Some proxy ->
  requests !! opcode = Some message ->
  arguments_to_c message args s = Ok (args_ptr, s1) ->
  exists new s',
    _marshal_constructor requests proxy_class_dispatcher constructor_result
      self opcode interface args s = Ok (new, s')
    /\ Proxy._ptr new
       = Some (constructor_result proxy opcode args_ptr (Interface._ptr interface))
    /\ Proxy._display new
       = Some (match Proxy._display self with Some d => d | None => Proxy.oid self end)
    /\ Proxy.user_data new = None
    /\ Proxy.oid new = next_oid s
    /\ wl_proxy_marshal_array_constructor proxy opcode args_ptr (Interface._ptr interface)
       ∈ lib_calls s'.
Proof.
  intros Hptr Hreq Henc.
  destruct (arguments_to_c_frame _ _ _ _ _ Henc) as (_ & _ & _ & _ & _ & _ & Ho).
  unfold _marshal_constructor, ensure_valid. rewrite Hptr.
  unfold _marshal_constructor_body, request. rewrite Hreq, Hptr. cbv zeta.
  destruct (proxy_class_dispatcher interface) as [d|].
  - do 2 eexists. split.
    + eapply bind_run; [reflexivity|]. cbv beta.
      eapply bind_run; [exact Henc|]. cbv beta.
      eapply bind_run; [reflexivity|]. cbv beta.
      eapply bind_run; [reflexivity|]. cbv beta.
      eapply bind_run; [reflexivity|]. cbv beta.
      unfold Proxy___init__. cbn [Proxy._ptr].
      eapply bind_run; [reflexivity|]. cbv beta.
      eapply bind_run; [reflexivity|]. cbv beta.
      eapply bind_run; [reflexivity|]. cbv beta.
      eapply bind_run; [reflexivity|]. reflexivity.
    + cbn [Proxy._ptr Proxy._display Proxy.user_data Proxy.oid]. norm_state.
      repeat split; try reflexivity; [exact Ho|].
      apply elem_of_app. left. apply elem_of_app. right. apply list_elem_of_here.
  - do 2 eexists. split.
    + eapply bind_run; [reflexivity|]. cbv beta.
      eapply bind_run; [exact Henc|]. cbv beta.
      eapply bind_run; [reflexivity|]. cbv beta.
      eapply bind_run; [reflexivity|]. cbv beta.
      eapply bind_run; [reflexivity|]. cbv beta. reflexivity.
    + cbn [Proxy._ptr Proxy._display Proxy.user_data Proxy.oid]. norm_state.
      repeat split; try reflexivity; [exact Ho|].
      apply elem_of_app. right. apply list_elem_of_here.
Qed.

(** X13. [_destroy] only ever changes the pointer: afterwards the pointer
    is [None] or the NULL pointer it already was, never a usable one, the
    other attributes are as before, and a second [_destroy] changes
    nothing. *)
Theorem X13_destroy_leaves_no_usable_pointer (self : Proxy.t) :
  truthy_ptr (Proxy._ptr (_destroy self)) = false
  /\ (Proxy._ptr (_destroy self) = None \/ Proxy._ptr (_destroy self) = Some 0%N)
  /\ _destroy (_destroy self) = _destroy self
  /\ Proxy.oid (_destroy self) = Proxy.oid self
  /\ Proxy._display (_destroy self) = Proxy._display self
  /\ Proxy.user_data (_destroy self) = Proxy.user_data self
  /\ Proxy._handle (_destroy self) = Proxy._handle self.
Proof.
  destruct self as [oid [p|] display user_data handle]; unfold _destroy; cbn.
  - destruct (p =? 0)%N eqn:E; cbn.
    + apply N.eqb_eq in E. subst p. cbn. repeat split; auto.
    + repeat split; auto.
  - repeat split; auto.
Qed.

Lemma X12_witness :
  exists new s',
    _marshal_constructor [single (Argument.make ArgumentType.Int)]
      (fun _ => Some 3%N) (fun _ _ _ _ => 0%N)
      {| Proxy.oid := 1; Proxy._ptr := Some 4000%N; Proxy._display := None;
         Proxy.user_data := None; Proxy._handle := None |}
      0 wl_surface [PyInt 3] initial_state = Ok (new, s')
    /\ Proxy._ptr new = Some 0%N
    /\ Proxy._display new = Some 1%N
    /\ Proxy.oid new = 1%N.
Proof.
  destruct (arguments_to_c (single (Argument.make ArgumentType.Int)) [PyInt 3] initial_state)
    as [[args_ptr s1]|e] eqn:E; [|vm_compute in E; discriminate E].
  destruct (X12_marshal_constructor_wraps_the_returned_pointer
              [single (Argument.make ArgumentType.Int)]
              (fun _ => Some 3%N) (fun _ _ _ _ => 0%N)
              {| Proxy.oid := 1; Proxy._ptr := Some 4000%N; Proxy._display := None;
                 Proxy.user_data := None; Proxy._handle := None |}
              0 wl_surface [PyInt 3] initial_state 4000
              (single (Argument.make ArgumentType.Int)) args_ptr s1
              eq_refl eq_refl E)
    as (new & s' & Hrun & Hp & Hd & _ & Ho & _).
  exists new, s'. split; [exact Hrun|]. split; [exact Hp|]. split; [exact Hd | exact Ho].
Defined.

(** ** Anonymous files *)

(** X14. Opening and closing restores the object and the process: when the
    library returns a descriptor that was not open, [open] records it and
    marks it open, [close] then closes it and clears [fd], and a further
    [close] does nothing. *)
Theorem X14_open_then_close_restores (create : Z -> gset Z -> Z)
    (size ignored : Z) (os : gset Z) :
  - 2 ^ 63 <= size < 2 ^ 63 ->
  0 <= create size os ->
  create size os ∉ os ->
  let d := create size os in
  let opened := {| AnonymousFile.size := size; AnonymousFile.fd := Some d |} in
  AnonymousFile.open create (AnonymousFile.__init__ size) ignored os
  = (inr tt, opened, {[d]} ∪ os)
  /\ AnonymousFile.close opened ({[d]} ∪ os) = (inr tt, AnonymousFile.__init__ size, os)
  /\ AnonymousFile.close (AnonymousFile.__init__ size) os
     = (inr tt, AnonymousFile.__init__ size, os).
Proof.
  intros Hs Hd Hfresh d opened. split; [|split].
  - unfold AnonymousFile.open, AnonymousFile.__init__.
    cbn [AnonymousFile.fd AnonymousFile.size].
    destruct (- 2 ^ 63 <=? size) eqn:E1; [|lia]. destruct (size <? 2 ^ 63) eqn:E2; [|lia].
    cbn [andb]. fold d. destruct (d <? 0) eqn:E3; [unfold d in E3; lia|]. reflexivity.
  - unfold AnonymousFile.close, opened, AnonymousFile.os_close.
    cbn [AnonymousFile.fd AnonymousFile.size].
    destruct (decide (d ∈ {[d]} ∪ os)) as [_|Hn]; [|exfalso; apply Hn; set_solver].
    unfold AnonymousFile.__init__. do 2 f_equal.
    apply leibniz_equiv. fold d in Hfresh. set_solver.
  - reflexivity.
Qed.

Lemma X14_witness :
  AnonymousFile.open (fun _ _ => 5) (AnonymousFile.__init__ 4096) 0 {[0; 1; 2]}
  = (inr tt, {| AnonymousFile.size := 4096; AnonymousFile.fd := Some 5 |},
     {[5]} ∪ {[0; 1; 2]})
  /\ AnonymousFile.close {| AnonymousFile.size := 4096; AnonymousFile.fd := Some 5 |}
       ({[5]} ∪ {[0; 1; 2]})
     = (inr tt, AnonymousFile.__init__ 4096, {[0; 1; 2]})
  /\ AnonymousFile.close (AnonymousFile.__init__ 4096) {[0; 1; 2]}
     = (inr tt, AnonymousFile.__init__ 4096, {[0; 1; 2]}).
Proof.
  apply (X14_open_then_close_restores (fun _ _ => 5) 4096 0 {[0; 1; 2]}).
  - lia.
  - lia.
  - set_solver.
Defined.

(** X15. A failed creation sticks: [open] assigns the negative result to
    [fd] before it raises, so every later [open] raises "File is already
    open" without asking the library again, and [close] raises OSError and
    leaves [fd] set. *)
Theorem X15_failed_open_leaves_the_object_unusable (create : Z -> gset Z -> Z)
    (size ignored again : Z) (os : gset Z) :
  - 2 ^ 63 <= size < 2 ^ 63 ->
  create size os < 0 ->
  create size os ∉ os ->
  let failed := {| AnonymousFile.size := size;
                   AnonymousFile.fd := Some (create size os) |} in
  AnonymousFile.open create (AnonymousFile.__init__ size) ignored os
  = (inl (AnonymousFile.IOError "Unable to create anonymous file"), failed, os)
  /\ AnonymousFile.open create failed again os
     = (inl (AnonymousFile.IOError "File is already open"), failed, os)
  /\ AnonymousFile.close failed os = (inl AnonymousFile.OSError, failed, os).
Proof.
  intros Hs Hd Hfresh failed. split; [|split].
  - unfold AnonymousFile.open, AnonymousFile.__init__.
    cbn [AnonymousFile.fd AnonymousFile.size].
    destruct (- 2 ^ 63 <=? size) eqn:E1; [|lia]. destruct (size <? 2 ^ 63) eqn:E2; [|lia].
    cbn [andb]. destruct (create size os <? 0) eqn:E3; [reflexivity | lia].
  - reflexivity.
  - unfold AnonymousFile.close, failed, AnonymousFile.os_close. cbn [AnonymousFile.fd].
    destruct (decide (create size os ∈ os)); [contradiction | reflexivity].
Qed.

Lemma X15_witness :
  AnonymousFile.open (fun _ _ => -1) (AnonymousFile.__init__ 4096) 0 {[0; 1; 2]}
  = (inl (AnonymousFile.IOError "Unable to create anonymous file"),
     {| AnonymousFile.size := 4096; AnonymousFile.fd := Some (-1) |}, {[0; 1; 2]})
  /\ AnonymousFile.open (fun _ _ => -1)
       {| AnonymousFile.size := 4096; AnonymousFile.fd := Some (-1) |} 8 {[0; 1; 2]}
     = (inl (AnonymousFile.IOError "File is already open"),
        {| AnonymousFile.size := 4096; AnonymousFile.fd := Some (-1) |}, {[0; 1; 2]})
  /\ AnonymousFile.close {| AnonymousFile.size := 4096; AnonymousFile.fd := Some (-1) |}
       {[0; 1; 2]}
     = (inl AnonymousFile.OSError,
        {| AnonymousFile.size := 4096; AnonymousFile.fd := Some (-1) |}, {[0; 1; 2]}).
Proof.
  apply (X15_failed_open_leaves_the_object_unusable (fun _ _ => -1) 4096 0 8 {[0; 1; 2]}).
  - lia.
  - lia.
  - set_solver.
Defined.

(** X17. [__exit__] closes the descriptor but leaves it in [fd]: after a
    successful [open], [__exit__] returns with the object unchanged and the
    descriptor closed, and the object then refuses [open] ("File is already
    open") while [close] and [__del__] try to close the same descriptor
    again and raise OSError. *)
Theorem X17_exit_leaves_a_stale_descriptor (create : Z -> gset Z -> Z)
    (size again : Z) (d : Z) (os : gset Z) :
  d ∉ os ->
  let opened := {| AnonymousFile.size := size; AnonymousFile.fd := Some d |} in
  AnonymousFile.__exit__ opened ({[d]} ∪ os) = (inr tt, opened, os)
  /\ AnonymousFile.open create opened again os
     = (inl (AnonymousFile.IOError "File is already open"), opened, os)
  /\ AnonymousFile.close opened os = (inl AnonymousFile.OSError, opened, os)
  /\ AnonymousFile.__del__ opened os = (inl AnonymousFile.OSError, opened, os).
Proof.
  intros Hfresh opened. split; [|split; [|split]].
  - unfold AnonymousFile.__exit__, opened, AnonymousFile.os_close. cbn [AnonymousFile.fd].
    destruct (decide (d ∈ {[d]} ∪ os)) as [_|Hn]; [|exfalso; apply Hn; set_solver].
    do 2 f_equal. apply leibniz_equiv. set_solver.
  - reflexivity.
  - unfold AnonymousFile.close, opened, AnonymousFile.os_close. cbn [AnonymousFile.fd].
    destruct (decide (d ∈ os)); [contradiction | reflexivity].
  - unfold AnonymousFile.__del__, opened, AnonymousFile.os_close. cbn [AnonymousFile.fd].
    destruct (decide (d ∈ os)); [contradiction | reflexivity].
Qed.

Lemma X17_witness :
  AnonymousFile.__exit__ {| AnonymousFile.size := 64; AnonymousFile.fd := Some 5 |}
    ({[5]} ∪ {[0; 1; 2]})
  = (inr tt, {| AnonymousFile.size := 64; AnonymousFile.fd := Some 5 |}, {[0; 1; 2]})
  /\ AnonymousFile.open (fun _ _ => 6)
       {| AnonymousFile.size := 64; AnonymousFile.fd := Some 5 |} 64 {[0; 1; 2]}
     = (inl (AnonymousFile.IOError "File is already open"),
        {| AnonymousFile.size := 64; AnonymousFile.fd := Some 5 |}, {[0; 1; 2]})
  /\ AnonymousFile.close {| AnonymousFile.size := 64; AnonymousFile.fd := Some 5 |}
       {[0; 1; 2]}
     = (inl AnonymousFile.OSError,
        {| AnonymousFile.size := 64; AnonymousFile.fd := Some 5 |}, {[0; 1; 2]})
  /\ AnonymousFile.__del__ {| AnonymousFile.size := 64; AnonymousFile.fd := Some 5 |}
       {[0; 1; 2]}
     = (inl AnonymousFile.OSError,
        {| AnonymousFile.size := 64; AnonymousFile.fd := Some 5 |}, {[0; 1; 2]}).
Proof.
  apply (X17_exit_leaves_a_stale_descriptor (fun _ _ => 6) 64 64 5 {[0; 1; 2]}).
  set_solver.
Defined.

(** ** Class names and enum values of the scanner *)

Lemma upper_not_underscore (c : ascii) :
  Ascii.eqb c "_" = false -> Ascii.eqb (Text.upper c) "_" = false.
Proof. destruct c as [[] [] [] [] [] [] [] []]; intros H; try reflexivity; discriminate H. Qed.

Lemma lower_not_underscore (c : ascii) :
  Ascii.eqb c "_" = false -> Ascii.eqb (Text.lower c) "_" = false.
Proof. destruct c as [[] [] [] [] [] [] [] []]; intros H; try reflexivity; discriminate H. Qed.

Lemma upper_not_lower (c : ascii) : Text.is_lower (Text.upper c) = false.
Proof. destruct c as [[] [] [] [] [] [] [] []]; reflexivity. Qed.

Lemma upper_upper (c : ascii) : Text.upper (Text.upper c) = Text.upper c.
Proof. destruct c as [[] [] [] [] [] [] [] []]; reflexivity. Qed.

Lemma map_string_length f (s : string) : String.length (Text.map_string f s) = String.length s.
Proof. induction s as [|c s IH]; [reflexivity|]. cbn. now rewrite IH. Qed.

Lemma map_lower_no_underscore (s : string) :
  Text.no_underscore s = true -> Text.no_underscore (Text.map_string Text.lower s) = true.
Proof.
  unfold Text.no_underscore. induction s as [|c s IH]; [reflexivity|].
  cbn [Text.map_string list_ascii_of_string forallb]. intros H.
  apply andb_true_iff in H. destruct H as [Hc Hs]. apply negb_true_iff in Hc.
  rewrite (lower_not_underscore c Hc). cbn [negb andb]. apply IH. exact Hs.
Qed.

Lemma capitalize_no_underscore (s : string) :
  Text.no_underscore s = true -> Text.no_underscore (Text.capitalize s) = true.
Proof.
  destruct s as [|c s]; [reflexivity|]. unfold Text.no_underscore.
  cbn [Text.capitalize list_ascii_of_string forallb]. intros H.
  apply andb_true_iff in H. destruct H as [Hc Hs]. apply negb_true_iff in Hc.
  rewrite (upper_not_underscore c Hc). cbn [negb andb].
  apply map_lower_no_underscore. exact Hs.
Qed.

Lemma capitalize_length (s : string) : String.length (Text.capitalize s) = String.length s.
Proof. destruct s as [|c s]; [reflexivity|]. cbn. now rewrite map_string_length. Qed.

Lemma split_underscore_pieces (s : string) :
  Forall (fun piece => Text.no_underscore piece = true) (Text.split_underscore s)
  /\ Text.split_underscore s <> []
  /\ (list_sum (map String.length (Text.split_underscore s))
      + Text.count_underscore s = String.length s)%nat
  /\ length (Text.split_underscore s) = S (Text.count_underscore s).
Proof.
  induction s as [|c s (IHf & IHn & IHl & IHc)].
  - repeat split; [repeat constructor | discriminate].
  - cbn [Text.split_underscore]. unfold Text.count_underscore in *.
    cbn [list_ascii_of_string]. rewrite filter_cons.
    destruct (Ascii.eqb c "_") eqn:E.
    + apply Ascii.eqb_eq in E. subst c.
      destruct (decide ("_"%char = "_"%char)); [|contradiction].
      repeat split; [constructor; [reflexivity | exact IHf] | discriminate | |].
      * simpl. simpl in IHl. lia.
      * cbn [length]. lia.
    + assert (Hne : c <> "_"%char) by (intros ->; rewrite Ascii.eqb_refl in E; discriminate).
      destruct (decide (c = "_"%char)); [contradiction|].
      destruct (Text.split_underscore s) as [|piece pieces]; [contradiction|].
      apply Forall_cons in IHf. destruct IHf as [Hp Hps].
      repeat split; [constructor; [|exact Hps] | discriminate | |].
      * unfold Text.no_underscore. cbn [list_ascii_of_string forallb].
        rewrite E. exact Hp.
      * simpl. simpl in IHl. lia.
      * exact IHc.
Qed.

Lemma concat_no_underscore (pieces : list string) :
  Forall (fun piece => Text.no_underscore piece = true) pieces ->
  Text.no_underscore (String.concat "" pieces) = true
  /\ String.length (String.concat "" pieces) = list_sum (map String.length pieces).
Proof.
  induction 1 as [|piece pieces Hp _ [IHn IHl]]; [split; reflexivity|].
  rewrite concat_empty_cons. split.
  - clear IHl. unfold Text.no_underscore in *. induction piece as [|c piece IH]; [exact IHn|].
    change (String c piece ++ String.concat "" pieces)%string
      with (String c (piece ++ String.concat "" pieces)%string).
    cbn [list_ascii_of_string forallb] in *.
    apply andb_true_iff in Hp. destruct Hp as [Hc Hp]. rewrite Hc. cbn [andb].
    apply IH. exact Hp.
  - simpl map. simpl list_sum. rewrite <- IHl. clear.
    induction piece as [|c piece IH]; [reflexivity|].
    change (String c piece ++ String.concat "" pieces)%string
      with (String c (piece ++ String.concat "" pieces)%string).
    cbn [String.length]. rewrite IH. lia.
Qed.

(** X18. For an argument with an ASCII interface name, [interface_class]
    returns a name without any underscore whose length is that of the
    interface name less its underscores; without an interface the assertion
    fails. *)
Theorem X18_interface_class_drops_the_underscores (self : Scanner.Argument) :
  match Scanner.interface self with
  | None => interface_class self = inl AssertionError
  | Some interface =>
      Text.is_ascii interface = true ->
      exists name,
        interface_class self = inr name
        /\ Text.no_underscore name = true
        /\ (String.length name + Text.count_underscore interface
            = String.length interface)%nat
  end.
Proof.
  unfold interface_class. destruct (Scanner.interface self) as [interface|]; [|reflexivity].
  intros _. eexists. split; [reflexivity|].
  destruct (split_underscore_pieces interface) as (Hf & _ & Hl & _).
  assert (Hcap : Forall (fun piece => Text.no_underscore piece = true)
                   (map Text.capitalize (Text.split_underscore interface))).
  { apply Forall_map. eapply Forall_impl; [exact Hf|].
    intros piece Hp. apply capitalize_no_underscore. exact Hp. }
  destruct (concat_no_underscore _ Hcap) as [Hn Hlen]. split; [exact Hn|].
  rewrite Hlen, map_map.
  rewrite (map_ext _ String.length) by (intros; apply capitalize_length). exact Hl.
Qed.

Lemma X18_witness :
  exists name,
    interface_class (scanned "object" (Some "wl_data_device") None) = inr name
    /\ Text.no_underscore name = true
    /\ (String.length name + Text.count_underscore "wl_data_device"
        = String.length "wl_data_device")%nat.
Proof.
  apply (X18_interface_class_drops_the_underscores
           (scanned "object" (Some "wl_data_device") None)).
  reflexivity.
Defined.

Lemma map_upper_idempotent (s : string) :
  Text.map_string Text.upper (Text.map_string Text.upper s) = Text.map_string Text.upper s.
Proof.
  induction s as [|c s IH]; [reflexivity|]. cbn. now rewrite upper_upper, IH.
Qed.

Lemma string_append_assoc (a b c : string) :
  ((a ++ b) ++ c)%string = (a ++ (b ++ c))%string.
Proof.
  induction a as [|x a IH]; [reflexivity|].
  change (((String x a ++ b) ++ c)%string) with (String x ((a ++ b) ++ c)%string).
  change ((String x a ++ (b ++ c))%string) with (String x (a ++ (b ++ c))%string).
  now rewrite IH.
Qed.

Lemma entry_value_cases (value : string) :
  (exists digits,
      value = String "0" (String "x" digits)
      /\ entry_value value = String "0" (String "x" (Text.map_string Text.upper digits)))
  \/ (String.substring 0 2 value <> "0x" /\ entry_value value = value).
Proof.
  destruct value as [|a value]; [right; split; [discriminate | reflexivity]|].
  destruct value as [|b digits].
  - right. split; [discriminate|].
    destruct a as [[] [] [] [] [] [] [] []]; reflexivity.
  - destruct (ascii_dec a "0") as [->|Ha].
    + destruct (ascii_dec b "x") as [->|Hb].
      * left. exists digits. split; reflexivity.
      * right. split.
        -- cbn. intros [= H]. contradiction.
        -- destruct b as [[] [] [] [] [] [] [] []]; try reflexivity; contradiction.
    + right. split.
      * cbn. intros [= H]. contradiction.
      * destruct a as [[] [] [] [] [] [] [] []]; try reflexivity; contradiction.
Qed.

Lemma lower_upper (c : ascii) : Text.lower (Text.upper c) = Text.lower c.
Proof. destruct c as [[] [] [] [] [] [] [] []]; reflexivity. Qed.

Lemma map_lower_upper (s : string) :
  Text.map_string Text.lower (Text.map_string Text.upper s) = Text.map_string Text.lower s.
Proof.
  induction s as [|c s IH]; [reflexivity|]. cbn. now rewrite lower_upper, IH.
Qed.

Lemma map_upper_no_lower (s : string) :
  forallb (fun c => negb (Text.is_lower c))
    (list_ascii_of_string (Text.map_string Text.upper s)) = true.
Proof.
  induction s as [|c s IH]; [reflexivity|].
  cbn [Text.map_string list_ascii_of_string forallb].
  rewrite upper_not_lower, IH. reflexivity.
Qed.

Lemma get_map_string f (s : string) (i : nat) (c : ascii) :
  String.get i s = Some c -> String.get i (Text.map_string f s) = Some (f c).
Proof.
  revert i. induction s as [|x s IH]; intros i H; [discriminate H|].
  destruct i as [|i]; cbn in *.
  - injection H as ->. reflexivity.
  - apply IH. exact H.
Qed.

(** X19. For an ASCII value, the value that [Entry.output] writes has the
    length of the value it was given, is that value unless it starts with
    "0x", keeps the prefix "0x" in lower case, and is not changed by being
    written again.  When the value is "0x" followed by digits, what is
    written is "0x" followed by the digits in upper case: each character is
    the upper case of the one at its place, none is a lower-case letter,
    and the digits are the same up to case.  The printed line is the left
    side, " = " and that value. *)
Theorem X19_entry_value_is_normalised_once (int_accepts : string -> bool)
    (name value enum_name : string) :
  Text.is_ascii value = true ->
  String.length (entry_value value) = String.length value
  /\ entry_value (entry_value value) = entry_value value
  /\ (String.substring 0 2 value <> "0x" -> entry_value value = value)
  /\ String.substring 0 2 (entry_value value) = String.substring 0 2 value
  /\ (forall digits, value = ("0x" ++ digits)%string ->
      exists out,
        entry_value value = ("0x" ++ out)%string
        /\ out = Text.map_string Text.upper digits
        /\ (forall i c, String.get i digits = Some c ->
                        String.get i out = Some (Text.upper c))
        /\ forallb (fun c => negb (Text.is_lower c)) (list_ascii_of_string out) = true
        /\ Text.map_string Text.lower out = Text.map_string Text.lower digits)
  /\ exists left,
       Entry_output int_accepts name value enum_name
       = (left ++ " = " ++ entry_value value)%string
       /\ (int_accepts name = false -> name <> "name" -> left = name)
       /\ (int_accepts name = false -> name = "name" -> left = "name_").
Proof.
  intros _. split; [|split; [|split; [|split; [|split]]]].
  - destruct (entry_value_cases value) as [(digits & -> & ->) | [_ ->]]; [|reflexivity].
    cbn. now rewrite map_string_length.
  - destruct (entry_value_cases value) as [(digits & -> & ->) | [_ H]];
      [|rewrite !H; reflexivity].
    cbn. now rewrite map_upper_idempotent.
  - intros Hne.
    destruct (entry_value_cases value) as [(digits & -> & _) | [_ ->]]; [|reflexivity].
    exfalso. apply Hne. destruct digits; reflexivity.
  - destruct (entry_value_cases value) as [(digits & -> & ->) | [_ ->]]; [|reflexivity].
    destruct digits; reflexivity.
  - intros digits ->. exists (Text.map_string Text.upper digits).
    split; [reflexivity|]. split; [reflexivity|]. split; [|split].
    + intros i c. apply get_map_string.
    + apply map_upper_no_lower.
    + apply map_lower_upper.
  - unfold Entry_output. destruct (int_accepts name).
    + exists (enum_name ++ "_" ++ name)%string. split.
      * rewrite !string_append_assoc. reflexivity.
      * split; discriminate.
    + exists (if String.eqb name "name" then "name_" else name). split; [reflexivity|].
      split.
      * intros _ Hne. destruct (String.eqb name "name") eqn:E; [|reflexivity].
        apply String.eqb_eq in E. contradiction.
      * intros _ ->. reflexivity.
Qed.

Lemma X19_witness :
  Text.is_ascii "0x1f" = true
  /\ entry_value "0x1f" = "0x1F"
  /\ entry_value "42" = "42"
  /\ Entry_output (fun name => String.eqb name "0") "name" "0x1f" "error" = "name_ = 0x1F".
Proof.
  destruct (X19_entry_value_is_normalised_once (fun name => String.eqb name "0")
              "name" "0x1f" "error" eq_refl)
    as (_ & _ & _ & _ & Hhex & left & Hout & _ & Hname).
  destruct (X19_entry_value_is_normalised_once (fun name => String.eqb name "0")
              "name" "42" "error" eq_refl) as (_ & _ & Hdec & _).
  destruct (Hhex "1f" eq_refl) as (out & Hvalue & -> & _).
  split; [reflexivity|]. split; [exact Hvalue|]. split; [apply Hdec; discriminate|].
  rewrite Hout, (Hname eq_refl eq_refl), Hvalue. reflexivity.
Defined.

(** ** scanner/argument.py: the text of [allow-null] *)

(** X22. [signature] tests only whether [allow-null] is a non-empty
    string and never reads its text: two non-empty texts, such as "true"
    and "false", give the same signature, which is the type string
    prefixed by "?" whenever the type is a valid one; without the
    attribute the type string is returned as it is. *)
Theorem X22_allow_null_text_is_not_read (self : Scanner.Argument) (v w : string) :
  v <> "" -> w <> "" ->
  Scanner.signature (with_allow_null self (Some v))
  = Scanner.signature (with_allow_null self (Some w))
  /\ (forall t, Scanner.type_to_string self = Ok t ->
                 Scanner.signature (with_allow_null self (Some v)) = Ok ("?" ++ t)
                 /\ Scanner.signature (with_allow_null self None) = Ok t).
Proof.
  intros Hv Hw.
  assert (Ht : forall o, Scanner.type_to_string (with_allow_null self o)
                         = Scanner.type_to_string self) by reflexivity.
  assert (Htruthy : forall u, u <> "" -> truthy_str (Some u) = true).
  { intros [|c u] Hu; [contradiction | reflexivity]. }
  unfold Scanner.signature.
  change (Scanner.allow_null (with_allow_null self ?o)) with o.
  cbn [Scanner.allow_null with_allow_null].
  rewrite !Ht, (Htruthy v Hv), (Htruthy w Hw).
  split; [reflexivity|].
  intros t Hty. rewrite Hty. split; reflexivity.
Qed.

Lemma X22_witness :
  Scanner.signature (with_allow_null (scanned "string" None None) (Some "false"))
  = Scanner.signature (with_allow_null (scanned "string" None None) (Some "true"))
  /\ Scanner.signature (with_allow_null (scanned "string" None None) (Some "false"))
     = Ok "?s".
Proof.
  destruct (X22_allow_null_text_is_not_read (scanned "string" None None) "false" "true")
    as [Heq Hty]; [discriminate | discriminate |].
  split; [exact Heq|]. apply (Hty "s"). reflexivity.
Defined.
